(** * The OCLint driver (oclint-driver/main.cpp): exit decision, output
      resolution, start-up checks and the reporting loop.

    The driver is embedded as explicit state passing over a [World] that
    holds what the C++ code keeps in process-wide objects (the rule
    registry, the selected reporters, the result collector), the output
    channels (standard output, standard error, the files written by the
    reporters) and a trace of the calls made to the external collaborators.
    C++ exceptions are the [Throw] outcome of a small state-and-error
    monad. *)

From Stdlib Require Import ZArith Ascii String List.
From stdpp Require Import base option list strings pretty gmap.

Local Open Scope Z_scope.
Local Open Scope string_scope.
Local Open Scope list_scope.

(** ** Exit statuses *)

(** Modelled from the spec: oclint/ExitCode.h is not among the sources.
    The enumerators are the names main.cpp returns; section 6 of the
    specification lists them as pairwise distinct process exit statuses. *)
Inductive ExitCode : Set :=
  | SUCCESS
  | RULE_NOT_FOUND
  | REPORTER_NOT_FOUND
  | ERROR_WHILE_PROCESSING
  | ERROR_WHILE_REPORTING
  | VIOLATIONS_EXCEED_THRESHOLD
  | COMMON_OPTIONS_PARSER_ERRORS
  | COMPILATION_ERRORS.

Global Instance ExitCode_eq_dec : EqDecision ExitCode.
Proof. solve_decision. Defined.

(** The integer behind each enumerator.  main.cpp tests [if (prepareStatus)]
    and returns [SUCCESS] from a clean run, so the code relies on [SUCCESS]
    being zero and every failure status being non-zero; nothing else about
    the numbering is used. *)
Class ExitCodeValues := {
  exit_value : ExitCode -> Z;
  exit_value_SUCCESS : exit_value SUCCESS = 0;
  exit_value_failure : forall c, c <> SUCCESS -> exit_value c <> 0
}.

(** The numbering of an enum without initialisers, in the order above. *)
Definition enum_value (c : ExitCode) : Z :=
  match c with
  | SUCCESS => 0
  | RULE_NOT_FOUND => 1
  | REPORTER_NOT_FOUND => 2
  | ERROR_WHILE_PROCESSING => 3
  | ERROR_WHILE_REPORTING => 4
  | VIOLATIONS_EXCEED_THRESHOLD => 5
  | COMMON_OPTIONS_PARSER_ERRORS => 6
  | COMPILATION_ERRORS => 7
  end.

#[refine] Instance enum_values : ExitCodeValues :=
  {| exit_value := enum_value |}.
Proof.
  - reflexivity.
  - intros c Hc. destruct c; simpl; congruence.
Defined.

(** ** Configuration: the accessors of namespace oclint::option *)

Record Options : Type := {
  rulesPath : list string;
  reportTypes : list string;
  maxP1 : Z;
  maxP2 : Z;
  maxP3 : Z;
  hasOutputPath : bool;
  outputPath : string;
  allowDuplicatedViolations : bool;
  showEnabledRules : bool
}.

(** ** Violations, the collector and the two Results views *)

(** Modelled from the spec: oclint/Violation.h and oclint/ResultCollector.h
    are not among the sources.  Section 3 of the specification gives a
    violation its rule identifier, priority, location and message, and the
    collector an append log of violations plus the hard analysis errors. *)
Record Violation : Type := {
  v_rule : string;
  v_priority : Z;
  v_path : string;
  v_startLine : Z;
  v_startColumn : Z;
  v_endLine : Z;
  v_endColumn : Z;
  v_message : string
}.

Record ResultCollector : Type := {
  violationLog : list Violation;
  hardErrors : list string
}.

(** [oclint::Results] is an abstract class with two concrete subclasses,
    each built over the collector. *)
Inductive Results : Type :=
  | RawResults (collector : ResultCollector)
  | UniqueResults (collector : ResultCollector).

Definition backingCollector (r : Results) : ResultCollector :=
  match r with RawResults c | UniqueResults c => c end.

Definition isRaw (r : Results) : bool :=
  match r with RawResults _ => true | UniqueResults _ => false end.

Definition isUnique (r : Results) : bool :=
  match r with RawResults _ => false | UniqueResults _ => true end.

(** The virtual methods of [oclint::Results] the driver calls.  Their
    bodies live in oclint-core, which is not among the sources: the driver
    is verified for every implementation.  Both are [int]-valued/[bool]
    queries on a read-only view. *)
Class ResultsMethods := {
  hasErrors : Results -> bool;
  numberOfViolationsWithPriority : Results -> Z -> Z
}.

(** ** Exceptions, streams, reporters *)

(** A C++ exception, identified with its [what()] text. *)
Definition exn : Type := string.

Inductive result (A : Type) : Type :=
  | Ok (a : A)
  | Throw (e : exn).
Arguments Ok {A} a.
Arguments Throw {A} e.

(** [ostream*] as main.cpp uses it: the address of [std::cout], or a
    heap-allocated [ofstream] on a path. *)
Inductive ostream : Type :=
  | Cout
  | FileStream (path : string).

Global Instance ostream_eq_dec : EqDecision ostream.
Proof. solve_decision. Defined.

(** [oclint::Reporter]: [name()] and [report(results, out)].  A call to
    [report] writes some text to the stream it is given and then returns
    or throws. *)
Record Reporter : Type := {
  name : string;
  report : Results -> string * option exn
}.

(** ** The world *)

(** Calls that leave the driver, in the order they happen. *)
Inductive Event : Type :=
  | EvLoadRules (path : string)
  | EvLoadReporter
  | EvAnalysis
  | EvOpen (path : string) (opened : bool)
  | EvReport (reporter : string) (out : ostream)
  | EvClose (out : ostream).

Record World : Type := {
  ruleSet : list string;
  reporters : list Reporter;
  collector : ResultCollector;
  files : gmap string string;
  cout : string;
  cerr : string;
  trace : list Event
}.

Definition M (A : Type) : Type := World -> result A * World.

Definition ret {A} (a : A) : M A := fun w => (Ok a, w).

Definition throw {A} (e : exn) : M A := fun w => (Throw e, w).

Definition bind {A B} (m : M A) (k : A -> M B) : M B :=
  fun w =>
    match m w with
    | (Ok a, w') => k a w'
    | (Throw e, w') => (Throw e, w')
    end.

(** [try { m } catch (const exception& e) { h e }]. *)
Definition try_catch {A} (m : M A) (h : exn -> M A) : M A :=
  fun w =>
    match m w with
    | (Ok a, w') => (Ok a, w')
    | (Throw e, w') => h e w'
    end.

Definition modify (f : World -> World) : M unit := fun w => (Ok tt, f w).

Definition gets {A} (f : World -> A) : M A := fun w => (Ok (f w), w).

Notation "'do' x <- m ; k" := (bind m (fun x => k))
  (at level 10, x name, m at level 100, k at level 200).
Notation "'do_' m ; k" := (bind m (fun _ => k))
  (at level 10, m at level 100, k at level 200).

Definition set_ruleSet (v : list string) (w : World) : World :=
  {| ruleSet := v; reporters := reporters w; collector := collector w;
     files := files w; cout := cout w; cerr := cerr w; trace := trace w |}.

Definition set_reporters (v : list Reporter) (w : World) : World :=
  {| ruleSet := ruleSet w; reporters := v; collector := collector w;
     files := files w; cout := cout w; cerr := cerr w; trace := trace w |}.

Definition set_collector (v : ResultCollector) (w : World) : World :=
  {| ruleSet := ruleSet w; reporters := reporters w; collector := v;
     files := files w; cout := cout w; cerr := cerr w; trace := trace w |}.

Definition set_files (v : gmap string string) (w : World) : World :=
  {| ruleSet := ruleSet w; reporters := reporters w; collector := collector w;
     files := v; cout := cout w; cerr := cerr w; trace := trace w |}.

Definition write_cout (s : string) (w : World) : World :=
  {| ruleSet := ruleSet w; reporters := reporters w; collector := collector w;
     files := files w; cout := cout w +:+ s; cerr := cerr w; trace := trace w |}.

Definition write_cerr (s : string) (w : World) : World :=
  {| ruleSet := ruleSet w; reporters := reporters w; collector := collector w;
     files := files w; cout := cout w; cerr := cerr w +:+ s; trace := trace w |}.

Definition emit (e : Event) (w : World) : World :=
  {| ruleSet := ruleSet w; reporters := reporters w; collector := collector w;
     files := files w; cout := cout w; cerr := cerr w; trace := trace w ++ [e] |}.

(** [std::endl] as the text it puts on the stream. *)
Definition endl : string := String "010" EmptyString.

(** [operator<<] on an [int]. *)
Definition show_int (z : Z) : string := pretty z.

(** ** llvm::sys::path::parent_path and llvm::sys::path::stem

    Both belong to LLVM's Support library, not to the repository.  They are
    transcribed from llvm/lib/Support/Path.cpp for the POSIX path style
    (one separator, the slash; no drive letters).  Positions are [nat]
    indices into the string and [None] stands for [StringRef::npos]. *)
Module path.

Definition is_separator (c : ascii) : bool := bool_decide (c = "/"%char).

(** [is_separator(str[i])], for [i] inside the string. *)
Definition sep_at (str : string) (i : nat) : bool :=
  match String.get i str with
  | Some c => is_separator c
  | None => false
  end.

(** The largest index below [n] that holds a separator:
    [str.find_last_of(separators, n)] for [n] at most the size. *)
Fixpoint find_last_sep_below (str : string) (n : nat) : option nat :=
  match n with
  | O => None
  | S i => if sep_at str i then Some i else find_last_sep_below str i
  end.

Fixpoint find_first_sep (str : string) (i : nat) : option nat :=
  match str with
  | EmptyString => None
  | String c rest =>
      if is_separator c then Some i else find_first_sep rest (S i)
  end.

(** [str.find_first_of(separators, from)]. *)
Definition find_first_sep_from (str : string) (from : nat) : option nat :=
  find_first_sep (String.substring from (String.length str - from) str) from.

Definition filename_pos (str : string) : nat :=
  let size := String.length str in
  if (0 <? size)%nat && sep_at str (size - 1) then (size - 1)%nat
  else
    match find_last_sep_below str (size - 1) with
    | None => O
    | Some pos => if (pos =? 1)%nat && sep_at str 0 then O else S pos
    end.

Definition root_dir_start (str : string) : option nat :=
  let size := String.length str in
  if (3 <? size)%nat && sep_at str 0
     && bool_decide (String.get 0 str = String.get 1 str)
     && negb (sep_at str 2)
  then find_first_sep_from str 2
  else if (0 <? size)%nat && sep_at str 0 then Some O
  else None.

(** [root_dir_pos == npos || end_pos > root_dir_pos]. *)
Definition above_root (root_dir_pos : option nat) (end_pos : nat) : bool :=
  match root_dir_pos with
  | None => true
  | Some r => (r <? end_pos)%nat
  end.

(** The loop of [parent_path_end] that walks back over separators. *)
Fixpoint skip_separators (str : string) (root_dir_pos : option nat)
    (end_pos : nat) : nat :=
  match end_pos with
  | O => O
  | S e =>
      if above_root root_dir_pos end_pos && sep_at str e
      then skip_separators str root_dir_pos e
      else end_pos
  end.

Definition parent_path_end (str : string) : nat :=
  let end_pos := filename_pos str in
  let filename_was_sep := (0 <? String.length str)%nat && sep_at str end_pos in
  let root_dir_pos := root_dir_start str in
  let end_pos := skip_separators str root_dir_pos end_pos in
  match root_dir_pos with
  | Some r =>
      if (end_pos =? r)%nat && negb filename_was_sep then S r else end_pos
  | None => end_pos
  end.

Definition parent_path (str : string) : string :=
  String.substring 0 (parent_path_end str) str.

(** The loop of [reverse_iterator::operator++]: it stops in front of the
    root directory. *)
Fixpoint skip_trailing (str : string) (root_dir_pos : option nat)
    (end_pos : nat) : nat :=
  match end_pos with
  | O => O
  | S e =>
      if negb (bool_decide (Some e = root_dir_pos)) && sep_at str e
      then skip_trailing str root_dir_pos e
      else end_pos
  end.

(** [filename(path)] is [*rbegin(path)]: the last component. *)
Definition filename (str : string) : string :=
  let size := String.length str in
  let root_dir_pos := root_dir_start str in
  let end_pos := skip_trailing str root_dir_pos size in
  if (0 <? size)%nat && sep_at str (size - 1)
     && match root_dir_pos, end_pos with
        | None, _ => true
        | Some _, O => true
        | Some r, S e => (r <? e)%nat
        end
  then "."
  else
    let start_pos := filename_pos (String.substring 0 end_pos str) in
    String.substring start_pos (end_pos - start_pos) str.

Fixpoint find_last_dot_below (str : string) (n : nat) : option nat :=
  match n with
  | O => None
  | S i =>
      if bool_decide (String.get i str = Some "."%char) then Some i
      else find_last_dot_below str i
  end.

Definition stem (str : string) : string :=
  let fname := filename str in
  match find_last_dot_below fname (String.length fname) with
  | None => fname
  | Some pos =>
      if bool_decide (fname = ".") || bool_decide (fname = "..") then fname
      else String.substring 0 pos fname
  end.

End path.

(** ** The collaborators outside main.cpp *)

(** What the driver calls but does not define.
    - [parserError]: the error of [CommonOptionsParser::create], if any.
    - [dynamicLoadRules_result]: what loading one rule path does to the
      rule registry, with the exception it ends in, if any.
    - [reporterRegistry]: the reporter handlers that can be resolved.
    - [filteredRuleNames]: [rulesetFilter().filteredRuleNames()].
    - [driver_run]: the analysis engine, which fills the collector and may
      throw.
    - [canOpen]: whether an [ofstream] on the path ends up open. *)
Record Env : Type := {
  parserError : option string;
  dynamicLoadRules_result : string -> list string -> list string * option exn;
  reporterRegistry : list Reporter;
  filteredRuleNames : list string -> list string;
  driver_run : list string -> ResultCollector -> ResultCollector * option exn;
  canOpen : string -> bool
}.

Definition finish (e : option exn) (w : World) : result unit * World :=
  match e with
  | None => (Ok tt, w)
  | Some e => (Throw e, w)
  end.

Section Driver.

Context {codes : ExitCodeValues} {methods : ResultsMethods}.
Variable env : Env.
Variable opts : Options.

(** [dynamicLoadRules(rulePath)] of rules.h. *)
Definition dynamicLoadRules (rulePath : string) : M unit :=
  fun w =>
    let '(rules, e) := dynamicLoadRules_result env rulePath (ruleSet w) in
    finish e (emit (EvLoadRules rulePath) (set_ruleSet rules w)).

Fixpoint loadEachRulePath (paths : list string) : M unit :=
  match paths with
  | [] => ret tt
  | rulePath :: rest => do_ dynamicLoadRules rulePath; loadEachRulePath rest
  end.

Definition consumeArgRulesPath : M unit :=
  loadEachRulePath (rulesPath opts).

(** Modelled from the spec: oclint::RuleSet is not among the sources.
    The rule registry holds the registered rules and
    [RuleSet::numberOfRules()] is their total count. *)
Definition numberOfRules (w : World) : Z := Z.of_nat (length (ruleSet w)).

Definition numberOfViolationsExceedThreshold (results : Results) : bool :=
  (numberOfViolationsWithPriority results 1 >? maxP1 opts)%Z
  || (numberOfViolationsWithPriority results 2 >? maxP2 opts)%Z
  || (numberOfViolationsWithPriority results 3 >? maxP3 opts)%Z.

(** The path [outStream] opens for a reporter when an output path is
    configured. *)
Definition outputFor (reporter : Reporter) : string :=
  let output := outputPath opts in
  path.parent_path output +:+ "/" +:+ path.stem output +:+ "."
    +:+ name reporter.

Definition outStream (reporter : Reporter) : M ostream :=
  if negb (hasOutputPath opts) then ret Cout
  else
    let output := outputFor reporter in
    fun w =>
      if canOpen env output
      then (Ok (FileStream output),
            emit (EvOpen output true)
              (set_files (<[output := ""]> (files w)) w))
      else (Throw ("cannot open report output file " +:+ output),
            emit (EvOpen output false) w).

(** [out] is a pointer: [None] is the null pointer.  The cast to
    [ofstream*] is unchecked, so whatever stream is passed is the one
    closed. *)
Definition disposeOutStream (out : option ostream) : M unit :=
  match out with
  | Some stream =>
      if hasOutputPath opts then modify (emit (EvClose stream)) else ret tt
  | None => ret tt
  end.

Definition listRules : M unit :=
  fun w =>
    (Ok tt,
     write_cout
       ("Enabled rules:" +:+ endl
        +:+ String.concat ""
              (map (fun ruleName => "- " +:+ ruleName +:+ endl)
                   (filteredRuleNames env (ruleSet w)))
        +:+ endl) w).

Definition printErrorLine (errorMessage : string) (w : World) : World :=
  write_cerr (endl +:+ "oclint: error: " +:+ errorMessage +:+ endl) w.

Definition printViolationsExceedThresholdError (results : Results)
    (w : World) : World :=
  let w := printErrorLine "violations exceed threshold" w in
  let w :=
    write_cerr ("P1=" +:+ show_int (numberOfViolationsWithPriority results 1)
                +:+ "[" +:+ show_int (maxP1 opts) +:+ "] ") w in
  let w :=
    write_cerr ("P2=" +:+ show_int (numberOfViolationsWithPriority results 2)
                +:+ "[" +:+ show_int (maxP2 opts) +:+ "] ") w in
  write_cerr ("P3=" +:+ show_int (numberOfViolationsWithPriority results 3)
              +:+ "[" +:+ show_int (maxP3 opts) +:+ "] " +:+ endl) w.

Definition getResults (w : World) : Results :=
  if allowDuplicatedViolations opts
  then RawResults (collector w)
  else UniqueResults (collector w).

(** Modelled from the spec: loadReporter() of reporters.h is not among
    the sources.  Section 4.3: each reporter name in the configuration is
    looked up in the reporter registry, and an unresolved name fails with
    an error naming the missing reporter. *)
Fixpoint resolveReporters (names : list string) : result (list Reporter) :=
  match names with
  | [] => Ok []
  | reportType :: rest =>
      match List.find (fun r => String.eqb (name r) reportType)
              (reporterRegistry env) with
      | None => Throw ("cannot find reporter for report type: " +:+ reportType)
      | Some reporter =>
          match resolveReporters rest with
          | Ok selected => Ok (reporter :: selected)
          | Throw e => Throw e
          end
      end
  end.

Definition loadReporter : M unit :=
  fun w =>
    let w := emit EvLoadReporter w in
    match resolveReporters (reportTypes opts) with
    | Ok selected => (Ok tt, set_reporters selected w)
    | Throw e => (Throw e, w)
    end.

Definition prepare (w : World) : ExitCode * World :=
  match consumeArgRulesPath w with
  | (Throw e, w) => (RULE_NOT_FOUND, printErrorLine e w)
  | (Ok _, w) =>
      if (numberOfRules w <=? 0)%Z
      then (RULE_NOT_FOUND, printErrorLine "no rule loaded" w)
      else
        match loadReporter w with
        | (Throw e, w) => (REPORTER_NOT_FOUND, printErrorLine e w)
        | (Ok _, w) => (SUCCESS, w)
        end
  end.

Definition handleExit (results : Results) (w : World) : ExitCode * World :=
  if hasErrors results then (COMPILATION_ERRORS, w)
  else if numberOfViolationsExceedThreshold results
  then (VIOLATIONS_EXCEED_THRESHOLD,
        printViolationsExceedThresholdError results w)
  else (SUCCESS, w).

(** [driver.run(compilations, sourcePathList, analyzer)], the analyzer
    holding [rulesetFilter().filteredRules()]. *)
Definition runDriver : M unit :=
  fun w =>
    let '(c, e) :=
      driver_run env (filteredRuleNames env (ruleSet w)) (collector w) in
    finish e (emit EvAnalysis (set_collector c w)).

(** Text put on a stream.  For a file it is taken to reach the file at
    once: the driver closes, hence flushes, the stream of every reporter
    whose turn completes. *)
Definition write_stream (out : ostream) (text : string) (w : World) : World :=
  match out with
  | Cout => write_cout text w
  | FileStream p =>
      set_files (<[p := default "" (files w !! p) +:+ text]> (files w)) w
  end.

(** [reporter->report(results, *out)]. *)
Definition callReport (reporter : Reporter) (results : Results)
    (out : ostream) : M unit :=
  fun w =>
    let '(text, e) := report reporter results in
    finish e (emit (EvReport (name reporter) out) (write_stream out text w)).

(** One turn of the reporting loop of [main]. *)
Definition reportWith (results : Results) (reporter : Reporter) : M unit :=
  do out <- outStream reporter;
  do_ callReport reporter results out;
  disposeOutStream (Some out).

Fixpoint reportEach (results : Results) (rs : list Reporter) : M unit :=
  match rs with
  | [] => ret tt
  | reporter :: rest =>
      do_ reportWith results reporter; reportEach results rest
  end.

Definition main (w : World) : ExitCode * World :=
  match parserError env with
  | Some err => (COMMON_OPTIONS_PARSER_ERRORS, write_cerr err w)
  | None =>
      let '(prepareStatus, w) := prepare w in
      if negb (exit_value prepareStatus =? 0)%Z then (prepareStatus, w)
      else
        let w := if showEnabledRules opts then snd (listRules w) else w in
        match runDriver w with
        | (Throw e, w) => (ERROR_WHILE_PROCESSING, printErrorLine e w)
        | (Ok _, w) =>
            let results := getResults w in
            match reportEach results (reporters w) w with
            | (Throw e, w) => (ERROR_WHILE_REPORTING, printErrorLine e w)
            | (Ok _, w) => handleExit results w
            end
        end
  end.

End Driver.

(** ** A reference implementation of the Results views *)

(** Modelled from the spec: oclint/RawResults.h and oclint/UniqueResults.h
    are not among the sources.  Section 3: the Raw view exposes the log
    verbatim; the Unique view keeps one entry per identity key (rule
    identifier, file path, start line, start column, message), first seen
    first; both report whether a hard analysis error was recorded. *)
Definition identityKey (v : Violation) : string * string * Z * Z * string :=
  (v_rule v, v_path v, v_startLine v, v_startColumn v, v_message v).

Fixpoint firstSeen (seen : list (string * string * Z * Z * string))
    (log : list Violation) : list Violation :=
  match log with
  | [] => []
  | v :: rest =>
      if bool_decide (identityKey v ∈ seen) then firstSeen seen rest
      else v :: firstSeen (identityKey v :: seen) rest
  end.

Definition allViolations (r : Results) : list Violation :=
  match r with
  | RawResults c => violationLog c
  | UniqueResults c => firstSeen [] (violationLog c)
  end.

Definition countWithPriority (priority : Z) (vs : list Violation) : Z :=
  Z.of_nat (length (filter (fun v => v_priority v = priority) vs)).

Definition collectorViews : ResultsMethods := {|
  hasErrors r :=
    match hardErrors (backingCollector r) with [] => false | _ => true end;
  numberOfViolationsWithPriority r priority :=
    countWithPriority priority (allViolations r)
|}.

(** ** Helpers used to state the properties *)

(** The ceiling configured for a priority. *)
Definition maxP (opts : Options) (priority : Z) : Z :=
  match priority with
  | 1 => maxP1 opts
  | 2 => maxP2 opts
  | 3 => maxP3 opts
  | _ => 0
  end.

(** One [Pn=count[ceiling] ] entry of the threshold diagnostic. *)
Definition thresholdEntry (label : string) (count ceiling : Z) : string :=
  label +:+ "=" +:+ show_int count +:+ "[" +:+ show_int ceiling +:+ "] ".

Definition occurs_in (piece text : string) : Prop :=
  exists before after, text = before +:+ piece +:+ after.

(** [w'] continues the trace of [w] with events that all satisfy [P]. *)
Definition extends (P : Event -> Prop) (w w' : World) : Prop :=
  exists events, trace w' = trace w ++ events /\ Forall P events.

(** The events of the start-up phase. *)
Definition startup_event (e : Event) : Prop :=
  match e with
  | EvLoadRules _ | EvLoadReporter => True
  | _ => False
  end.

(** The events a whole run can contain, given the configuration: files are
    opened, written and closed only with an output path configured, and the
    standard output stream is written only without one and never closed. *)
Definition run_event (opts : Options) (e : Event) : Prop :=
  match e with
  | EvLoadRules _ | EvLoadReporter | EvAnalysis => True
  | EvOpen _ _ => hasOutputPath opts = true
  | EvReport _ Cout => hasOutputPath opts = false
  | EvReport _ (FileStream _) => hasOutputPath opts = true
  | EvClose Cout => False
  | EvClose (FileStream _) => hasOutputPath opts = true
  end.

(** A reporter name of the configuration that no registered handler has. *)
Definition unresolvedReporter (env : Env) (opts : Options) : Prop :=
  exists reportType, reportType ∈ reportTypes opts /\
    forall r, r ∈ reporterRegistry env -> name r <> reportType.

Section Turns.

Variable env : Env.
Variable opts : Options.
Variable results : Results.

(** What the reporter writes, and the exception it ends in, if any. *)
Definition reportText (r : Reporter) : string := fst (report r results).
Definition reportError (r : Reporter) : option exn := snd (report r results).

(** The reporter gets its stream and its [report] call returns. *)
Definition completes (r : Reporter) : Prop :=
  (hasOutputPath opts = true -> canOpen env (outputFor opts r) = true) /\
  reportError r = None.

(** The derived output path cannot be opened, or [report] throws. *)
Definition fails (r : Reporter) : Prop :=
  (hasOutputPath opts = true /\ canOpen env (outputFor opts r) = false) \/
  reportError r <> None.

(** The calls of a turn of the loop that does not complete. *)
Definition failedTurn (r : Reporter) (events : list Event) : Prop :=
  events = [EvOpen (outputFor opts r) false] \/
  events = [EvReport (name r) Cout] \/
  events = [EvOpen (outputFor opts r) true;
            EvReport (name r) (FileStream (outputFor opts r))].

End Turns.

(** The run from [w] parses its command line, passes [prepare] and the
    analysis, and enters the reporting loop in [w0]. *)
Definition reachesReporting (env : Env) (opts : Options) (w w0 : World) :
    Prop :=
  parserError env = None /\
  exists w1,
    prepare env opts w = (SUCCESS, w1) /\
    runDriver env
      (if showEnabledRules opts then snd (listRules env w1) else w1)
    = (Ok tt, w0).

(** ** Further helpers for whole-run properties *)

(** One line as [printErrorLine] puts it on the standard error channel. *)
Definition errorLine (errorMessage : string) : string :=
  endl +:+ "oclint: error: " +:+ errorMessage +:+ endl.

(** What [listRules] prints when [rules] are registered. *)
Definition enabledRulesText (env : Env) (rules : list string) : string :=
  "Enabled rules:" +:+ endl
  +:+ String.concat ""
        (map (fun ruleName => "- " +:+ ruleName +:+ endl)
             (filteredRuleNames env rules))
  +:+ endl.

(** The rule registry after loading [paths] one after the other, every
    call taken to its end. *)
Definition registryAfter (env : Env) (paths : list string)
    (rules : list string) : list string :=
  fold_left (fun rs rulePath => fst (dynamicLoadRules_result env rulePath rs))
    paths rules.

(** The calls of a turn of the reporting loop that completes. *)
Definition completedTurn (opts : Options) (r : Reporter) : list Event :=
  if hasOutputPath opts
  then [EvOpen (outputFor opts r) true;
        EvReport (name r) (FileStream (outputFor opts r));
        EvClose (FileStream (outputFor opts r))]
  else [EvReport (name r) Cout].

(** The last reporter of [rs] whose derived output path is [p]. *)
Definition lastWriter (opts : Options) (p : string) (rs : list Reporter) :
    option Reporter :=
  last (filter (fun r => outputFor opts r = p) rs).

(** The calls of the reporting loop. *)
Definition reporting_event (e : Event) : Prop :=
  match e with
  | EvOpen _ _ | EvReport _ _ | EvClose _ => True
  | _ => False
  end.

(** Every world component but the rule registry and the trace is as in
    [w]. *)
Definition sameOutputs (w w' : World) : Prop :=
  reporters w' = reporters w /\ collector w' = collector w /\
  files w' = files w /\ cout w' = cout w /\ cerr w' = cerr w.

(** The ceilings of [opts'] are at least those of [opts]. *)
Definition ceilings_le (opts opts' : Options) : Prop :=
  maxP1 opts <= maxP1 opts' /\ maxP2 opts <= maxP2 opts' /\
  maxP3 opts <= maxP3 opts'.

(** The character [c] occurs in [s]. *)
Fixpoint has_char (c : ascii) (s : string) : bool :=
  match s with
  | EmptyString => false
  | String x rest => bool_decide (x = c) || has_char c rest
  end.

(** What the driver itself puts on the standard error channel in a run
    that ends with [status]: nothing for [SUCCESS] and for
    [COMPILATION_ERRORS], the parser's error for
    [COMMON_OPTIONS_PARSER_ERRORS], and otherwise one error line, followed
    by the three threshold entries for [VIOLATIONS_EXCEED_THRESHOLD]. *)
Definition diagnosticShape (status : ExitCode) (text : string) : Prop :=
  match status with
  | SUCCESS | COMPILATION_ERRORS => text = ""
  | COMMON_OPTIONS_PARSER_ERRORS => True
  | VIOLATIONS_EXCEED_THRESHOLD =>
      exists entries,
        text = errorLine "violations exceed threshold" +:+ entries
  | _ => exists errorMessage, text = errorLine errorMessage
  end.

(** ** Concrete runs *)

Definition violationAt (line priority : Z) : Violation := {|
  v_rule := "long line"; v_priority := priority; v_path := "a.m";
  v_startLine := line; v_startColumn := 1; v_endLine := line;
  v_endColumn := 120; v_message := "line too long"
|}.

(** Five distinct priority-1 findings, no hard error. *)
Definition fiveP1 : ResultCollector := {|
  violationLog := map (fun line => violationAt line 1) [1; 2; 3; 4; 5];
  hardErrors := []
|}.

(** No finding at all, one hard error. *)
Definition brokenBuild : ResultCollector := {|
  violationLog := [];
  hardErrors := ["a.m:1:1: unknown type name"]
|}.

Definition optionsWith (paths reports : list string) (max1 : Z)
    (output : option string) (duplicates : bool) : Options := {|
  rulesPath := paths;
  reportTypes := reports;
  maxP1 := max1;
  maxP2 := 10;
  maxP3 := 20;
  hasOutputPath := match output with Some _ => true | None => false end;
  outputPath := default "" output;
  allowDuplicatedViolations := duplicates;
  showEnabledRules := false
|}.

Definition emptyWorld : World := {|
  ruleSet := [];
  reporters := [];
  collector := {| violationLog := []; hardErrors := [] |};
  files := ∅;
  cout := "";
  cerr := "";
  trace := []
|}.

(** A reporter that writes one line naming its format and returns. *)
Definition lineReporter (format : string) : Reporter := {|
  name := format;
  report _ := ("report in " +:+ format +:+ endl, None)
|}.

(** A reporter that throws after writing part of its output. *)
Definition brokenReporter (format : string) : Reporter := {|
  name := format;
  report _ := ("report in ", Some ("cannot render " +:+ format))
|}.

(** A host where the rule paths in [plugins] load and register the rules
    listed for them, any other rule path fails to load, [registry] holds the
    reporters, the paths in [unwritable] cannot be opened and the analysis
    leaves [analysed] in the collector. *)
Definition hostWith (plugins : gmap string (list string))
    (registry : list Reporter) (unwritable : list string)
    (analysed : ResultCollector) : Env := {|
  parserError := None;
  dynamicLoadRules_result rulePath rules :=
    match plugins !! rulePath with
    | Some registered => (rules ++ registered, None)
    | None => (rules, Some ("cannot open dynamic library: " +:+ rulePath))
    end;
  reporterRegistry := registry;
  filteredRuleNames rules := rules;
  driver_run _ _ := (analysed, None);
  canOpen output := negb (bool_decide (output ∈ unwritable))
|}.

(** One rule plugin, the reporters [json] and [xml], and a target
    directory where [out/report.xml] cannot be opened. *)
Definition twoReporterHost : Env :=
  hostWith {["rules/basic.dylib" := ["long line"]]}
    [lineReporter "json"; lineReporter "xml"] ["out/report.xml"] fiveP1.

Definition templateOptions : Options :=
  optionsWith ["rules/basic.dylib"] ["json"; "xml"] 10
    (Some "out/report.txt") false.

Definition stdoutOptions : Options :=
  optionsWith ["rules/basic.dylib"] ["json"; "xml"] 10 None false.

(** The same plugin with three reporters, the second of which throws. *)
Definition throwingHost : Env :=
  hostWith {["rules/basic.dylib" := ["long line"]]}
    [lineReporter "json"; brokenReporter "xml"; lineReporter "text"] [] fiveP1.

Definition threeReports : Options :=
  optionsWith ["rules/basic.dylib"] ["json"; "xml"; "text"] 10 None false.

(** The world in which the run of [twoReporterHost] enters the reporting
    loop. *)
Definition analysedWorld : World := {|
  ruleSet := ["long line"];
  reporters := [lineReporter "json"; lineReporter "xml"];
  collector := fiveP1;
  files := ∅;
  cout := "";
  cerr := "";
  trace := [EvLoadRules "rules/basic.dylib"; EvLoadReporter; EvAnalysis]
|}.

(** Three rule paths of which the second does not load. *)
Definition failingPathsOptions : Options :=
  optionsWith ["rules/basic.dylib"; "rules/missing.dylib"; "rules/other.dylib"]
    ["json"] 10 None false.

(** The host of [twoReporterHost] with every path writable. *)
Definition writableHost : Env :=
  hostWith {["rules/basic.dylib" := ["long line"]]}
    [lineReporter "json"; lineReporter "xml"] [] fiveP1.




(** The world after a start-up that loaded the one rule plugin and selected
    the reporters [selected]. *)
Definition preparedWorld (selected : list Reporter) : World :=
  set_reporters selected
    (emit EvLoadReporter
       (emit (EvLoadRules "rules/basic.dylib")
          (set_ruleSet ["long line"] emptyWorld))).


(** ** Strings *)

Lemma string_app_assoc (a b c : string) : (a +:+ b) +:+ c = a +:+ (b +:+ c).
Proof.
  induction a as [|x a IH]; [reflexivity|].
  change (String x ((a +:+ b) +:+ c) = String x (a +:+ (b +:+ c))).
  by rewrite IH.
Qed.

Lemma string_app_nil_r (a : string) : a +:+ "" = a.
Proof.
  induction a as [|x a IH]; [reflexivity|].
  change (String x (a +:+ "") = String x a). by rewrite IH.
Qed.

Lemma occurs_in_app_l piece a b :
  occurs_in piece a -> occurs_in piece (a +:+ b).
Proof.
  intros (x & y & ->). exists x, (y +:+ b).
  by rewrite !string_app_assoc.
Qed.

Lemma occurs_in_app_r piece a b :
  occurs_in piece b -> occurs_in piece (a +:+ b).
Proof.
  intros (x & y & ->). exists (a +:+ x), y.
  by rewrite !string_app_assoc.
Qed.

Lemma occurs_in_refl piece : occurs_in piece piece.
Proof. exists "", "". by rewrite string_app_nil_r. Qed.

(** ** The exit decision *)

Section ExitDecision.

Context {methods : ResultsMethods}.
Variable opts : Options.

Lemma exceed_iff (results : Results) :
  numberOfViolationsExceedThreshold opts results = true <->
  exists priority, priority ∈ [1; 2; 3] /\
    maxP opts priority < numberOfViolationsWithPriority results priority.
Proof.
  unfold numberOfViolationsExceedThreshold.
  rewrite !orb_true_iff, !Z.gtb_ltb, !Z.ltb_lt. split.
  - intros [[H|H]|H]; [exists 1|exists 2|exists 3]; split; try done;
      rewrite !elem_of_cons; auto.
  - intros (p & Hp & Hlt).
    rewrite !elem_of_cons, elem_of_nil in Hp.
    destruct Hp as [->|[->|[->|[]]]]; auto.
Qed.

Lemma handleExit_cases (results : Results) (w : World) :
  handleExit opts results w =
    if hasErrors results then (COMPILATION_ERRORS, w)
    else if numberOfViolationsExceedThreshold opts results
    then (VIOLATIONS_EXCEED_THRESHOLD,
          printViolationsExceedThresholdError opts results w)
    else (SUCCESS, w).
Proof. reflexivity. Qed.

End ExitDecision.

(** C1. A view that recorded a hard analysis error makes [handleExit]
    return [COMPILATION_ERRORS], whatever the three violation counts and
    the three ceilings are, and without printing anything; the status is
    [COMPILATION_ERRORS] only in that case, so the counts decide the
    outcome only for a view without hard errors. *)
Theorem C1_hard_error_forces_compilation_errors
    (methods : ResultsMethods) (opts : Options) (results : Results)
    (w : World) :
  (hasErrors results = true ->
     handleExit opts results w = (COMPILATION_ERRORS, w)) /\
  (fst (handleExit opts results w) = COMPILATION_ERRORS ->
     hasErrors results = true).
Proof.
  rewrite handleExit_cases. split.
  - by intros ->.
  - destruct (hasErrors results); [done|].
    by destruct (numberOfViolationsExceedThreshold opts results).
Qed.

Lemma C1_witness :
  @hasErrors collectorViews (RawResults brokenBuild) = true /\
  @handleExit collectorViews (optionsWith [] [] 0 None false)
    (RawResults brokenBuild) emptyWorld = (COMPILATION_ERRORS, emptyWorld).
Proof.
  split; [reflexivity|].
  apply (C1_hard_error_forces_compilation_errors collectorViews).
  reflexivity.
Defined.

(** C2. For a view without hard errors, [handleExit] returns
    [VIOLATIONS_EXCEED_THRESHOLD] exactly when the count of some priority
    among 1, 2, 3 is strictly greater than its ceiling, and [SUCCESS]
    otherwise; a count equal to its ceiling does not exceed.  With counts
    5, 0, 0: ceiling 4 for priority 1 gives [VIOLATIONS_EXCEED_THRESHOLD],
    ceiling 5 (and non-negative ceilings for 2 and 3) gives [SUCCESS]. *)
Theorem C2_exceed_iff_strictly_greater
    (methods : ResultsMethods) (opts : Options) (results : Results)
    (w : World) :
  hasErrors results = false ->
  (fst (handleExit opts results w) = VIOLATIONS_EXCEED_THRESHOLD <->
     exists priority, priority ∈ [1; 2; 3] /\
       maxP opts priority < numberOfViolationsWithPriority results priority)
  /\ (fst (handleExit opts results w) = SUCCESS <->
     forall priority : Z, (priority ∈ [1; 2; 3]) ->
       (numberOfViolationsWithPriority results priority <= maxP opts priority))
  /\ (numberOfViolationsWithPriority results 1 = 5 ->
      numberOfViolationsWithPriority results 2 = 0 ->
      numberOfViolationsWithPriority results 3 = 0 ->
      (maxP1 opts = 4 ->
         fst (handleExit opts results w) = VIOLATIONS_EXCEED_THRESHOLD)
      /\ (maxP1 opts = 5 -> 0 <= maxP2 opts -> 0 <= maxP3 opts ->
         handleExit opts results w = (SUCCESS, w))).
Proof.
  intros Hclean. rewrite handleExit_cases, Hclean.
  pose proof (exceed_iff opts results) as Hiff.
  destruct (numberOfViolationsExceedThreshold opts results) eqn:Hex; simpl.
  - assert (exists priority, priority ∈ [1; 2; 3] /\
      maxP opts priority < numberOfViolationsWithPriority results priority)
      as (p & Hp & Hlt) by by apply Hiff.
    split; [|split].
    + split; [eauto|done].
    + split; [done|]. intros Hall. specialize (Hall p Hp). lia.
    + intros H1 H2 H3. split; [done|]. intros M1 M2 M3. exfalso.
      rewrite !elem_of_cons, elem_of_nil in Hp.
      destruct Hp as [->|[->|[->|[]]]]; simpl in Hlt; lia.
  - assert (~ exists priority, priority ∈ [1; 2; 3] /\
      maxP opts priority < numberOfViolationsWithPriority results priority)
      as Hnone by (rewrite <- Hiff; congruence).
    split; [|split].
    + split; [done|]. intros ?. by exfalso.
    + split; [|done]. intros _ p Hp.
      destruct (Z_le_gt_dec (numberOfViolationsWithPriority results p)
                  (maxP opts p)) as [|Hgt]; [done|].
      exfalso. apply Hnone. exists p. split; [done|lia].
    + intros H1 H2 H3. split; [|done]. intros M1. exfalso. apply Hnone.
      exists 1. split; [rewrite elem_of_cons; auto|]. simpl. lia.
Qed.

Lemma C2_witness :
  @hasErrors collectorViews (UniqueResults fiveP1) = false /\
  fst (@handleExit collectorViews (optionsWith [] [] 4 None false)
         (UniqueResults fiveP1) emptyWorld) = VIOLATIONS_EXCEED_THRESHOLD /\
  @handleExit collectorViews (optionsWith [] [] 5 None false)
    (UniqueResults fiveP1) emptyWorld = (SUCCESS, emptyWorld).
Proof.
  split; [reflexivity|]. split.
  - apply (C2_exceed_iff_strictly_greater collectorViews
             (optionsWith [] [] 4 None false) (UniqueResults fiveP1)
             emptyWorld); reflexivity.
  - apply (C2_exceed_iff_strictly_greater collectorViews
             (optionsWith [] [] 5 None false) (UniqueResults fiveP1)
             emptyWorld); (reflexivity || (simpl; lia)).
Defined.

(** C7. Whenever [handleExit] decides [VIOLATIONS_EXCEED_THRESHOLD], what it
    appends to the standard error channel is the error line followed by the
    count and the ceiling of priority 1, of priority 2 and of priority 3, in
    that order, whichever priority exceeded; with any other status nothing
    is written. *)
Theorem C7_diagnostic_reports_all_three_priorities
    (methods : ResultsMethods) (opts : Options) (results : Results)
    (w : World) :
  let count := numberOfViolationsWithPriority results in
  let entry1 := thresholdEntry "P1" (count 1) (maxP1 opts) in
  let entry2 := thresholdEntry "P2" (count 2) (maxP2 opts) in
  let entry3 := thresholdEntry "P3" (count 3) (maxP3 opts) in
  (fst (handleExit opts results w) = VIOLATIONS_EXCEED_THRESHOLD ->
     exists diagnostic,
       cerr (snd (handleExit opts results w)) = cerr w +:+ diagnostic /\
       diagnostic =
         endl +:+ "oclint: error: violations exceed threshold" +:+ endl
         +:+ entry1 +:+ entry2 +:+ entry3 +:+ endl /\
       occurs_in entry1 diagnostic /\
       occurs_in entry2 diagnostic /\
       occurs_in entry3 diagnostic) /\
  (fst (handleExit opts results w) <> VIOLATIONS_EXCEED_THRESHOLD ->
     snd (handleExit opts results w) = w).
Proof.
  intros count entry1 entry2 entry3. rewrite handleExit_cases.
  destruct (hasErrors results); [by split|].
  destruct (numberOfViolationsExceedThreshold opts results); [|by split].
  split; [|done]. intros _. eexists. split; [|split; [reflexivity|]].
  - simpl. unfold thresholdEntry in *. subst entry1 entry2 entry3 count.
    by rewrite !string_app_assoc.
  - split; [|split].
    + do 3 apply occurs_in_app_r. apply occurs_in_app_l, occurs_in_refl.
    + do 4 apply occurs_in_app_r. apply occurs_in_app_l, occurs_in_refl.
    + do 5 apply occurs_in_app_r. apply occurs_in_app_l, occurs_in_refl.
Qed.

Lemma C7_witness :
  fst (@handleExit collectorViews (optionsWith [] [] 4 None false)
         (RawResults fiveP1) emptyWorld) = VIOLATIONS_EXCEED_THRESHOLD /\
  exists diagnostic,
    cerr (snd (@handleExit collectorViews (optionsWith [] [] 4 None false)
                 (RawResults fiveP1) emptyWorld)) = "" +:+ diagnostic /\
    diagnostic =
      endl +:+ "oclint: error: violations exceed threshold" +:+ endl
      +:+ "P1=5[4] " +:+ "P2=0[10] " +:+ "P3=0[20] " +:+ endl.
Proof.
  split; [reflexivity|].
  destruct (proj1 (C7_diagnostic_reports_all_three_priorities collectorViews
              (optionsWith [] [] 4 None false) (RawResults fiveP1) emptyWorld)
              eq_refl) as (d & Hd & Heq & _).
  exists d. split; [exact Hd|exact Heq].
Defined.

(** ** Building the Results view *)

(** C9. [getResults] builds the Raw view when the
    allow-duplicated-violations option is set and the Unique view when it
    is not; the view it builds is of exactly one of the two kinds and is
    built over the collector of the process. *)
Theorem C9_view_selected_by_one_flag (opts : Options) (w : World) :
  (allowDuplicatedViolations opts = true ->
     getResults opts w = RawResults (collector w)) /\
  (allowDuplicatedViolations opts = false ->
     getResults opts w = UniqueResults (collector w)) /\
  backingCollector (getResults opts w) = collector w /\
  isRaw (getResults opts w) = allowDuplicatedViolations opts /\
  isUnique (getResults opts w) = negb (allowDuplicatedViolations opts) /\
  isRaw (getResults opts w) <> isUnique (getResults opts w).
Proof.
  unfold getResults.
  destruct (allowDuplicatedViolations opts); repeat split; (done || auto).
Qed.

Lemma C9_witness :
  getResults (optionsWith [] [] 0 None true) emptyWorld
    = RawResults (collector emptyWorld) /\
  getResults (optionsWith [] [] 0 None false) emptyWorld
    = UniqueResults (collector emptyWorld).
Proof.
  split.
  - apply (C9_view_selected_by_one_flag (optionsWith [] [] 0 None true)).
    reflexivity.
  - apply (C9_view_selected_by_one_flag (optionsWith [] [] 0 None false)).
    reflexivity.
Defined.

(** ** Output resolution *)

Section OutputResolution.

Variable env : Env.
Variable opts : Options.

(** With an output path configured, [outStream] opens the path made of the
    parent path of the template, a slash, the stem of the template, a dot
    and the name of the reporter, and nothing else. *)
Lemma outStream_file (reporter : Reporter) (w : World) :
  hasOutputPath opts = true ->
  let output :=
    path.parent_path (outputPath opts) +:+ "/"
    +:+ path.stem (outputPath opts) +:+ "." +:+ name reporter in
  outStream env opts reporter w =
    if canOpen env output
    then (Ok (FileStream output),
          emit (EvOpen output true) (set_files (<[output := ""]> (files w)) w))
    else (Throw ("cannot open report output file " +:+ output),
          emit (EvOpen output false) w).
Proof. intros Hout. unfold outStream. by rewrite Hout. Qed.

Lemma outStream_cout (reporter : Reporter) (w : World) :
  hasOutputPath opts = false ->
  outStream env opts reporter w = (Ok Cout, w).
Proof. intros Hout. unfold outStream. by rewrite Hout. Qed.

End OutputResolution.

(** The template out/report.txt and the reporter json give out/report.json. *)
Example outputFor_directory_and_extension :
  outputFor (optionsWith [] ["json"] 0 (Some "out/report.txt") false)
    (lineReporter "json") = "out/report.json".
Proof. reflexivity. Qed.

(** C3. For the template [report], which has no directory part, and the
    reporter [xml], the path [outStream] opens is [/report.xml], in the
    root directory: the parent path of a bare name is empty and the slash
    is added all the same.  It is not [report.xml]. *)
Theorem C3_bare_template_opens_root_path :
  path.parent_path "report" = "" /\
  path.stem "report" = "report" /\
  outputFor (optionsWith [] ["xml"] 0 (Some "report") false)
    (lineReporter "xml") = "/report.xml" /\
  outputFor (optionsWith [] ["xml"] 0 (Some "report") false)
    (lineReporter "xml") <> "report.xml" /\
  fst (outStream (hostWith ∅ [lineReporter "xml"] [] fiveP1)
         (optionsWith [] ["xml"] 0 (Some "report") false)
         (lineReporter "xml") emptyWorld)
    = Ok (FileStream "/report.xml").
Proof. repeat split; (reflexivity || discriminate). Qed.

(** ** The calls a run makes *)

Lemma extends_same (P : Event -> Prop) (w w' : World) :
  trace w' = trace w -> extends P w w'.
Proof. intros H. exists []. by rewrite app_nil_r. Qed.

Lemma extends_trans (P : Event -> Prop) (w1 w2 w3 : World) :
  extends P w1 w2 -> extends P w2 w3 -> extends P w1 w3.
Proof.
  intros (e1 & H1 & F1) (e2 & H2 & F2). exists (e1 ++ e2). split.
  - by rewrite H2, H1, app_assoc.
  - by apply Forall_app.
Qed.

Lemma extends_emit (P : Event -> Prop) (e : Event) (w w' : World) :
  P e -> trace w' = trace w -> extends P w (emit e w').
Proof.
  intros HP H. exists [e]. split; [|by constructor]. simpl. by rewrite H.
Qed.

Lemma extends_weaken (P Q : Event -> Prop) (w w' : World) :
  (forall e, P e -> Q e) -> extends P w w' -> extends Q w w'.
Proof.
  intros HPQ (events & H & F). exists events. split; [done|].
  eapply Forall_impl; eauto.
Qed.

Lemma finish_snd (e : option exn) (w : World) : snd (finish e w) = w.
Proof. by destruct e. Qed.

Section Traces.

Context {codes : ExitCodeValues} {methods : ResultsMethods}.
Variable env : Env.
Variable opts : Options.

Lemma dynamicLoadRules_extends (rulePath : string) (w : World) :
  extends startup_event w (snd (dynamicLoadRules env rulePath w)).
Proof.
  unfold dynamicLoadRules.
  destruct (dynamicLoadRules_result env rulePath (ruleSet w)) as [rules e].
  rewrite finish_snd. by apply extends_emit.
Qed.

Lemma loadEachRulePath_extends (paths : list string) (w : World) :
  extends startup_event w (snd (loadEachRulePath env paths w)).
Proof.
  revert w. induction paths as [|p paths IH]; intros w.
  - by apply extends_same.
  - simpl. unfold bind.
    pose proof (dynamicLoadRules_extends p w) as Hp.
    destruct (dynamicLoadRules env p w) as [[[]|e] w1]; simpl in *; [|done].
    eapply extends_trans; [exact Hp|apply IH].
Qed.

Lemma loadReporter_extends (w : World) :
  extends startup_event w (snd (loadReporter env opts w)).
Proof.
  unfold loadReporter.
  destruct (resolveReporters env (reportTypes opts)); simpl.
  - by apply (extends_emit startup_event EvLoadReporter w (set_reporters a w)).
  - by apply extends_emit.
Qed.

Lemma prepare_extends (w : World) :
  extends startup_event w (snd (prepare env opts w)).
Proof.
  unfold prepare, consumeArgRulesPath.
  pose proof (loadEachRulePath_extends (rulesPath opts) w) as Hload.
  destruct (loadEachRulePath env (rulesPath opts) w) as [[[]|e] w1];
    simpl in *.
  - destruct (numberOfRules w1 <=? 0)%Z; simpl.
    + eapply extends_trans; [exact Hload|by apply extends_same].
    + pose proof (loadReporter_extends w1) as Hrep.
      destruct (loadReporter env opts w1) as [[[]|e] w2]; simpl in *.
      * eapply extends_trans; eauto.
      * eapply extends_trans; [exact Hload|].
        eapply extends_trans; [exact Hrep|by apply extends_same].
  - eapply extends_trans; [exact Hload|by apply extends_same].
Qed.

(** A start-up status other than [SUCCESS] is what [main] returns, in the
    state in which [prepare] left the world. *)
Lemma main_stops_after_failed_prepare (w : World) :
  parserError env = None ->
  fst (prepare env opts w) <> SUCCESS ->
  main env opts w = prepare env opts w.
Proof.
  intros Hparse Hfail. unfold main. rewrite Hparse.
  destruct (prepare env opts w) as [status w1]; simpl in *.
  pose proof (exit_value_failure status Hfail) as Hnz.
  by destruct (Z.eqb_spec (exit_value status) 0).
Qed.

(** A run whose start-up fails makes no call but those of the start-up. *)
Lemma failed_startup_extends (w : World) :
  fst (prepare env opts w) <> SUCCESS ->
  extends startup_event w (snd (main env opts w)).
Proof.
  intros Hfail. destruct (parserError env) as [err|] eqn:Hparse.
  - unfold main. rewrite Hparse. by apply extends_same.
  - rewrite main_stops_after_failed_prepare by done. apply prepare_extends.
Qed.

End Traces.

(** ** Start-up *)

Lemma startup_event_not_analysis (e : Event) :
  startup_event e -> e <> EvAnalysis.
Proof. by destruct e. Qed.

Lemma resolveReporters_unresolved (env : Env) (names : list string)
    (reportType : string) :
  reportType ∈ names ->
  (forall r, r ∈ reporterRegistry env -> name r <> reportType) ->
  exists e, resolveReporters env names = Throw e.
Proof.
  intros Hin Hnone. induction names as [|n names IH]; [by inversion Hin|].
  simpl.
  destruct (find (fun r => (name r =? n)%string) (reporterRegistry env))
    as [r|] eqn:Hfind; [|eauto].
  apply elem_of_cons in Hin as [->|Hin].
  - apply find_some in Hfind as [Hr Heq]. apply String.eqb_eq in Heq.
    exfalso. apply (Hnone r); [by apply list_elem_of_In|done].
  - destruct (IH Hin) as [e ->]. eauto.
Qed.

(** C5. When loading the configured rule paths ends without an exception
    and the rule registry then holds no rule, [prepare] returns
    [RULE_NOT_FOUND] after printing that no rule was loaded; [main] returns
    that status as soon as the command line has been parsed, and a run of
    [main] from there never calls the analysis. *)
Theorem C5_zero_rules_is_rule_not_found
    (codes : ExitCodeValues) (methods : ResultsMethods)
    (env : Env) (opts : Options) (w w1 : World) :
  consumeArgRulesPath env opts w = (Ok tt, w1) ->
  numberOfRules w1 = 0 ->
  prepare env opts w = (RULE_NOT_FOUND, printErrorLine "no rule loaded" w1) /\
  (parserError env = None ->
     main env opts w = (RULE_NOT_FOUND, printErrorLine "no rule loaded" w1)) /\
  extends (fun e => e <> EvAnalysis) w (snd (main env opts w)).
Proof.
  intros Hload Hzero.
  assert (prepare env opts w
          = (RULE_NOT_FOUND, printErrorLine "no rule loaded" w1)) as Hprep.
  { unfold prepare. by rewrite Hload, Hzero. }
  assert (fst (prepare env opts w) <> SUCCESS) as Hfail by by rewrite Hprep.
  split; [done|]. split.
  - intros Hparse. by rewrite main_stops_after_failed_prepare.
  - eapply extends_weaken; [apply startup_event_not_analysis|].
    by apply failed_startup_extends.
Qed.

(** The empty path list, from an empty registry. *)
Lemma C5_witness :
  consumeArgRulesPath (hostWith ∅ [lineReporter "text"] [] fiveP1)
    (optionsWith [] ["text"] 0 None false) emptyWorld = (Ok tt, emptyWorld) /\
  numberOfRules emptyWorld = 0 /\
  @main enum_values collectorViews (hostWith ∅ [lineReporter "text"] [] fiveP1)
    (optionsWith [] ["text"] 0 None false) emptyWorld
  = (RULE_NOT_FOUND, printErrorLine "no rule loaded" emptyWorld).
Proof.
  split; [reflexivity|]. split; [reflexivity|].
  apply (C5_zero_rules_is_rule_not_found enum_values collectorViews
           (hostWith ∅ [lineReporter "text"] [] fiveP1)
           (optionsWith [] ["text"] 0 None false) emptyWorld emptyWorld);
    reflexivity.
Defined.

(** A path list whose only artifact loads and registers nothing. *)
Example zero_rules_from_an_empty_plugin :
  @main enum_values collectorViews
    (hostWith {["rules/empty.dylib" := []]} [lineReporter "text"] [] fiveP1)
    (optionsWith ["rules/empty.dylib"] ["text"] 0 None false) emptyWorld
  = (RULE_NOT_FOUND,
     printErrorLine "no rule loaded"
       (emit (EvLoadRules "rules/empty.dylib") emptyWorld)).
Proof. vm_compute. reflexivity. Qed.

(** C10. A run in which loading a rule path throws and a run in which the
    loading ends normally with an empty registry get the same status
    [RULE_NOT_FOUND] from [prepare], and from [main] once the command line
    is parsed; what differs is the error line printed, which carries the
    text of the exception in the first run and the fixed text in the
    second. *)
Theorem C10_load_failure_and_no_rules_share_status
    (codes : ExitCodeValues) (methods : ResultsMethods)
    (env1 env2 : Env) (opts1 opts2 : Options) (w1 w1' w2 w2' : World)
    (e : exn) :
  consumeArgRulesPath env1 opts1 w1 = (Throw e, w1') ->
  consumeArgRulesPath env2 opts2 w2 = (Ok tt, w2') ->
  numberOfRules w2' <= 0 ->
  prepare env1 opts1 w1 = (RULE_NOT_FOUND, printErrorLine e w1') /\
  prepare env2 opts2 w2
    = (RULE_NOT_FOUND, printErrorLine "no rule loaded" w2') /\
  fst (prepare env1 opts1 w1) = fst (prepare env2 opts2 w2) /\
  (parserError env1 = None -> parserError env2 = None ->
     fst (main env1 opts1 w1) = RULE_NOT_FOUND /\
     fst (main env2 opts2 w2) = RULE_NOT_FOUND) /\
  cerr (snd (prepare env1 opts1 w1))
    = cerr w1' +:+ endl +:+ "oclint: error: " +:+ e +:+ endl /\
  cerr (snd (prepare env2 opts2 w2))
    = cerr w2' +:+ endl +:+ "oclint: error: " +:+ "no rule loaded" +:+ endl.
Proof.
  intros Hthrow Hload Hzero.
  assert (prepare env1 opts1 w1 = (RULE_NOT_FOUND, printErrorLine e w1'))
    as H1 by (unfold prepare; by rewrite Hthrow).
  assert (prepare env2 opts2 w2
          = (RULE_NOT_FOUND, printErrorLine "no rule loaded" w2')) as H2.
  { unfold prepare. rewrite Hload.
    by destruct (Z.leb_spec (numberOfRules w2') 0); [|lia]. }
  repeat split; try done.
  - by rewrite H1, H2.
  - rewrite main_stops_after_failed_prepare; by rewrite ?H1.
  - rewrite main_stops_after_failed_prepare; by rewrite ?H2.
  - by rewrite H1.
  - by rewrite H2.
Qed.

Lemma C10_witness :
  consumeArgRulesPath (hostWith ∅ [] [] fiveP1)
    (optionsWith ["rules/missing.dylib"] [] 0 None false) emptyWorld
  = (Throw "cannot open dynamic library: rules/missing.dylib",
     emit (EvLoadRules "rules/missing.dylib") emptyWorld) /\
  consumeArgRulesPath (hostWith ∅ [] [] fiveP1)
    (optionsWith [] [] 0 None false) emptyWorld = (Ok tt, emptyWorld) /\
  numberOfRules emptyWorld <= 0 /\
  fst (prepare (hostWith ∅ [] [] fiveP1)
         (optionsWith ["rules/missing.dylib"] [] 0 None false) emptyWorld)
  = fst (prepare (hostWith ∅ [] [] fiveP1)
           (optionsWith [] [] 0 None false) emptyWorld).
Proof.
  assert (consumeArgRulesPath (hostWith ∅ [] [] fiveP1)
            (optionsWith ["rules/missing.dylib"] [] 0 None false) emptyWorld
          = (Throw "cannot open dynamic library: rules/missing.dylib",
             emit (EvLoadRules "rules/missing.dylib") emptyWorld)) as H1
    by (vm_compute; reflexivity).
  assert (numberOfRules emptyWorld <= 0) as H3 by (vm_compute; discriminate).
  split; [exact H1|]. split; [reflexivity|]. split; [exact H3|].
  exact (proj1 (proj2 (proj2
    (C10_load_failure_and_no_rules_share_status enum_values collectorViews
       (hostWith ∅ [] [] fiveP1) (hostWith ∅ [] [] fiveP1)
       (optionsWith ["rules/missing.dylib"] [] 0 None false)
       (optionsWith [] [] 0 None false)
       emptyWorld (emit (EvLoadRules "rules/missing.dylib") emptyWorld)
       emptyWorld emptyWorld
       "cannot open dynamic library: rules/missing.dylib" H1 eq_refl H3)))).
Defined.

(** C6 as stated does not hold: an unresolved reporter name does not give
    [REPORTER_NOT_FOUND] when the rule check, which comes first, fails.
    With no rule path configured and the reporter [pmd] requested from a
    registry that only has [text], [prepare] and [main] return
    [RULE_NOT_FOUND]. *)
Lemma C6_counterexample :
  unresolvedReporter (hostWith ∅ [lineReporter "text"] [] fiveP1)
    (optionsWith [] ["pmd"] 0 None false) /\
  fst (prepare (hostWith ∅ [lineReporter "text"] [] fiveP1)
         (optionsWith [] ["pmd"] 0 None false) emptyWorld) = RULE_NOT_FOUND /\
  fst (prepare (hostWith ∅ [lineReporter "text"] [] fiveP1)
         (optionsWith [] ["pmd"] 0 None false) emptyWorld)
    <> REPORTER_NOT_FOUND /\
  fst (@main enum_values collectorViews
         (hostWith ∅ [lineReporter "text"] [] fiveP1)
         (optionsWith [] ["pmd"] 0 None false) emptyWorld)
    <> REPORTER_NOT_FOUND.
Proof.
  split; [|split; [reflexivity|split; discriminate]].
  exists "pmd". split; [by apply list_elem_of_singleton|].
  intros r Hr. apply list_elem_of_singleton in Hr as ->. discriminate.
Qed.

(** C6, amended. With a reporter name of the configuration that no
    registered handler has: if the rule paths load without an exception and
    leave at least one rule registered, [prepare] returns
    [REPORTER_NOT_FOUND] after printing the error of the failed lookup, and
    so does [main] once the command line is parsed; in every case
    [prepare] fails with [RULE_NOT_FOUND] or [REPORTER_NOT_FOUND], and a
    run of [main] never calls the analysis. *)
Theorem C6_unresolved_reporter_stops_before_analysis
    (codes : ExitCodeValues) (methods : ResultsMethods)
    (env : Env) (opts : Options) (w : World) :
  unresolvedReporter env opts ->
  (forall w1,
     consumeArgRulesPath env opts w = (Ok tt, w1) ->
     0 < numberOfRules w1 ->
     exists e,
       prepare env opts w
         = (REPORTER_NOT_FOUND, printErrorLine e (emit EvLoadReporter w1)) /\
       (parserError env = None ->
          main env opts w
            = (REPORTER_NOT_FOUND,
               printErrorLine e (emit EvLoadReporter w1)))) /\
  (fst (prepare env opts w) = RULE_NOT_FOUND \/
   fst (prepare env opts w) = REPORTER_NOT_FOUND) /\
  extends (fun e => e <> EvAnalysis) w (snd (main env opts w)).
Proof.
  intros (reportType & Hin & Hnone).
  destruct (resolveReporters_unresolved env _ _ Hin Hnone) as [e He].
  assert (fst (prepare env opts w) = RULE_NOT_FOUND \/
          fst (prepare env opts w) = REPORTER_NOT_FOUND) as Hstatus.
  { unfold prepare, loadReporter. rewrite He.
    destruct (consumeArgRulesPath env opts w) as [[[]|e'] w1]; [|by left].
    destruct (numberOfRules w1 <=? 0)%Z; [by left|by right]. }
  assert (fst (prepare env opts w) <> SUCCESS) as Hfail
    by (destruct Hstatus as [-> | ->]; discriminate).
  split; [|split; [done|]].
  - intros w1 Hload Hpos. exists e.
    assert (prepare env opts w
            = (REPORTER_NOT_FOUND, printErrorLine e (emit EvLoadReporter w1)))
      as Hprep.
    { unfold prepare, loadReporter. rewrite Hload, He.
      by destruct (Z.leb_spec (numberOfRules w1) 0); [lia|]. }
    split; [done|]. intros Hparse.
    by rewrite main_stops_after_failed_prepare.
  - eapply extends_weaken; [apply startup_event_not_analysis|].
    by apply failed_startup_extends.
Qed.

(** One rule registered, the reporter [pmd] requested, only [text] known. *)
Lemma C6_witness :
  unresolvedReporter
    (hostWith {["rules/basic.dylib" := ["long line"]]} [lineReporter "text"]
       [] fiveP1)
    (optionsWith ["rules/basic.dylib"] ["pmd"] 0 None false) /\
  fst (prepare
         (hostWith {["rules/basic.dylib" := ["long line"]]}
            [lineReporter "text"] [] fiveP1)
         (optionsWith ["rules/basic.dylib"] ["pmd"] 0 None false) emptyWorld)
    = REPORTER_NOT_FOUND /\
  extends (fun e => e <> EvAnalysis) emptyWorld
    (snd (@main enum_values collectorViews
            (hostWith {["rules/basic.dylib" := ["long line"]]}
               [lineReporter "text"] [] fiveP1)
            (optionsWith ["rules/basic.dylib"] ["pmd"] 0 None false)
            emptyWorld)).
Proof.
  assert (unresolvedReporter
    (hostWith {["rules/basic.dylib" := ["long line"]]} [lineReporter "text"]
       [] fiveP1)
    (optionsWith ["rules/basic.dylib"] ["pmd"] 0 None false)) as Hun.
  { exists "pmd". split; [by apply list_elem_of_singleton|].
    intros r Hr. apply list_elem_of_singleton in Hr as ->. discriminate. }
  split; [exact Hun|]. split; [vm_compute; reflexivity|].
  exact (proj2 (proj2
    (C6_unresolved_reporter_stops_before_analysis enum_values collectorViews
       _ _ emptyWorld Hun))).
Defined.

(** ** The reporting loop *)

Section Reporting.

Context {codes : ExitCodeValues} {methods : ResultsMethods}.
Variable env : Env.
Variable opts : Options.
Variable results : Results.

Lemma reportWith_cout (r : Reporter) (w : World) :
  hasOutputPath opts = false ->
  reportWith env opts results r w =
    finish (reportError results r)
      (emit (EvReport (name r) Cout) (write_cout (reportText results r) w)).
Proof.
  intros Hout. unfold reportWith, bind, outStream, callReport,
    disposeOutStream, reportError, reportText.
  rewrite Hout. simpl. by destruct (report r results) as [text [e|]].
Qed.

Lemma reportWith_unopened (r : Reporter) (w : World) :
  hasOutputPath opts = true ->
  canOpen env (outputFor opts r) = false ->
  reportWith env opts results r w =
    (Throw ("cannot open report output file " +:+ outputFor opts r),
     emit (EvOpen (outputFor opts r) false) w).
Proof.
  intros Hout Hopen. unfold reportWith, bind, outStream.
  by rewrite Hout, Hopen.
Qed.

Lemma reportWith_file (r : Reporter) (w : World) :
  hasOutputPath opts = true ->
  canOpen env (outputFor opts r) = true ->
  let output := outputFor opts r in
  let opened :=
    emit (EvOpen output true) (set_files (<[output := ""]> (files w)) w) in
  let written :=
    emit (EvReport (name r) (FileStream output))
      (set_files (<[output := reportText results r]> (files w)) opened) in
  reportWith env opts results r w =
    match reportError results r with
    | None => (Ok tt, emit (EvClose (FileStream output)) written)
    | Some e => (Throw e, written)
    end.
Proof.
  intros Hout Hopen. unfold reportWith, bind, outStream, callReport,
    disposeOutStream, reportError, reportText.
  rewrite Hout, Hopen. simpl.
  destruct (report r results) as [text [e|]]; simpl;
    rewrite lookup_insert_eq, insert_insert_eq; reflexivity.
Qed.

Lemma completes_or_fails (r : Reporter) :
  completes env opts results r \/ fails env opts results r.
Proof.
  unfold completes, fails.
  destruct (reportError results r); [right; right; done|].
  destruct (hasOutputPath opts); [|left; done].
  destruct (canOpen env (outputFor opts r)); [left|right; left]; done.
Qed.

Lemma reportWith_completes (r : Reporter) (w : World) :
  completes env opts results r -> exists w', reportWith env opts results r w = (Ok tt, w').
Proof.
  intros [Hopen Hrep]. destruct (hasOutputPath opts) eqn:Hout.
  - rewrite reportWith_file, Hrep by auto. eauto.
  - rewrite reportWith_cout, Hrep by auto. simpl. eauto.
Qed.

Lemma reportWith_fails (r : Reporter) (w : World) :
  fails env opts results r -> exists e w', reportWith env opts results r w = (Throw e, w').
Proof.
  intros [[Hout Hopen]|Hrep].
  - rewrite reportWith_unopened by done. eauto.
  - destruct (reportError results r) as [e|] eqn:He; [|done].
    destruct (hasOutputPath opts) eqn:Hout.
    + destruct (canOpen env (outputFor opts r)) eqn:Hopen.
      * rewrite reportWith_file, He by done. eauto.
      * rewrite reportWith_unopened by done. eauto.
    + rewrite reportWith_cout, He by done. simpl. eauto.
Qed.

(** A turn changes no file but the one derived for its reporter, and only
    appends to the standard output. *)
Lemma reportWith_frame (r : Reporter) (w : World) :
  let w' := snd (reportWith env opts results r w) in
  (forall p, p <> outputFor opts r -> files w' !! p = files w !! p) /\
  (hasOutputPath opts = true -> cout w' = cout w) /\
  (hasOutputPath opts = false ->
     cout w' = cout w +:+ reportText results r /\ files w' = files w) /\
  ruleSet w' = ruleSet w /\ reporters w' = reporters w /\
  collector w' = collector w /\ cerr w' = cerr w.
Proof.
  destruct (hasOutputPath opts) eqn:Hout.
  - destruct (canOpen env (outputFor opts r)) eqn:Hopen.
    + rewrite reportWith_file by done.
      destruct (reportError results r); simpl; repeat split; try done;
        intros p Hp; by rewrite lookup_insert_ne.
    + rewrite reportWith_unopened by done. simpl. by repeat split.
  - rewrite reportWith_cout by done.
    destruct (reportError results r); simpl; by repeat split.
Qed.

(** A turn that completes with an output path configured leaves the whole
    text of its reporter in the derived file. *)
Lemma reportWith_file_content (r : Reporter) (w w' : World) :
  hasOutputPath opts = true ->
  reportWith env opts results r w = (Ok tt, w') ->
  files w' !! outputFor opts r = Some (reportText results r).
Proof.
  intros Hout. destruct (canOpen env (outputFor opts r)) eqn:Hopen.
  - rewrite reportWith_file by done.
    destruct (reportError results r); [done|]. intros [= <-]. simpl.
    by rewrite lookup_insert_eq.
  - by rewrite reportWith_unopened.
Qed.

Lemma reportWith_failed_turn (r : Reporter) (w w' : World) (e : exn) :
  reportWith env opts results r w = (Throw e, w') ->
  exists events, trace w' = trace w ++ events /\ failedTurn opts r events.
Proof.
  unfold failedTurn. destruct (hasOutputPath opts) eqn:Hout.
  - destruct (canOpen env (outputFor opts r)) eqn:Hopen.
    + rewrite reportWith_file by done.
      destruct (reportError results r); [|done]. intros [= <- <-]. simpl.
      eexists. split; [symmetry; apply app_assoc|]. auto.
    + rewrite reportWith_unopened by done. intros [= <- <-]. simpl. eauto.
  - rewrite reportWith_cout by done.
    destruct (reportError results r); [|done]. intros [= <- <-]. simpl. eauto.
Qed.

Lemma reportWith_extends (r : Reporter) (w : World) :
  extends (run_event opts) w (snd (reportWith env opts results r w)).
Proof.
  destruct (hasOutputPath opts) eqn:Hout.
  - destruct (canOpen env (outputFor opts r)) eqn:Hopen.
    + rewrite reportWith_file by done.
      destruct (reportError results r); unfold extends; simpl.
      * eexists. split; [symmetry; apply app_assoc|].
        repeat constructor; done.
      * eexists. split; [rewrite <- (app_assoc (trace w)); symmetry;
                         apply app_assoc|].
        repeat constructor; done.
    + rewrite reportWith_unopened by done. by apply extends_emit.
  - rewrite reportWith_cout, finish_snd by done. by apply extends_emit.
Qed.

Lemma reportEach_app (pre rest : list Reporter) (w : World) :
  reportEach env opts results (pre ++ rest) w =
    match reportEach env opts results pre w with
    | (Ok _, w1) => reportEach env opts results rest w1
    | (Throw e, w1) => (Throw e, w1)
    end.
Proof.
  revert w. induction pre as [|r pre IH]; intros w; [done|].
  simpl. unfold bind.
  destruct (reportWith env opts results r w) as [[[]|e] w1]; [apply IH|done].
Qed.

Lemma reportEach_completes (rs : list Reporter) (w : World) :
  Forall (completes env opts results) rs ->
  exists w', reportEach env opts results rs w = (Ok tt, w').
Proof.
  intros Hall. revert w. induction Hall as [|r rs Hr _ IH]; intros w.
  - by exists w.
  - simpl. unfold bind.
    destruct (reportWith_completes r w Hr) as [w1 ->]. apply IH.
Qed.

Lemma reportEach_extends (rs : list Reporter) (w : World) :
  extends (run_event opts) w (snd (reportEach env opts results rs w)).
Proof.
  revert w. induction rs as [|r rs IH]; intros w.
  - by apply extends_same.
  - simpl. unfold bind. pose proof (reportWith_extends r w) as Hr.
    destruct (reportWith env opts results r w) as [[[]|e] w1];
      simpl in *; [|done].
    eapply extends_trans; [exact Hr|apply IH].
Qed.

(** The loop leaves alone every file that is the target of none of its
    reporters. *)
Lemma reportEach_other_files (rs : list Reporter) (w : World) (p : string) :
  Forall (fun r => outputFor opts r <> p) rs ->
  files (snd (reportEach env opts results rs w)) !! p = files w !! p.
Proof.
  intros Hall. revert w. induction Hall as [|r rs Hr _ IH]; intros w; [done|].
  simpl. unfold bind.
  destruct (reportWith_frame r w) as (Hfiles & _).
  destruct (reportWith env opts results r w) as [[[]|e] w1]; simpl in *.
  - rewrite IH. by apply Hfiles.
  - by apply Hfiles.
Qed.

(** After a loop that completed with an output path configured, the file
    of a reporter whose name no later reporter of the loop has holds
    exactly what that reporter wrote. *)
Lemma reportEach_file_content (rs : list Reporter) (w w' : World)
    (i : nat) (r : Reporter) :
  hasOutputPath opts = true ->
  reportEach env opts results rs w = (Ok tt, w') ->
  rs !! i = Some r ->
  Forall (fun q => name q <> name r) (drop (S i) rs) ->
  files w' !! outputFor opts r = Some (reportText results r).
Proof.
  intros Hout. revert w i. induction rs as [|q rs IH]; intros w i Hrun Hi Hlater;
    [done|].
  simpl in Hrun. unfold bind in Hrun.
  destruct (reportWith env opts results q w) as [[[]|e] w1] eqn:Hq; [|done].
  destruct i as [|i]; simpl in *.
  - injection Hi as ->.
    pose proof (reportEach_other_files rs w1 (outputFor opts r)) as Hkeep.
    rewrite Hrun in Hkeep. simpl in Hkeep. rewrite Hkeep.
    + by eapply reportWith_file_content.
    + eapply Forall_impl; [exact Hlater|]. intros x Hx Heq. apply Hx.
      unfold outputFor in Heq. rewrite <- !string_app_assoc in Heq.
      by apply (inj _) in Heq.
  - by eapply IH.
Qed.

(** Without an output path the loop appends the texts of its reporters to
    the standard output, in order, and touches no file. *)
Lemma reportEach_cout (rs : list Reporter) (w w' : World) :
  hasOutputPath opts = false ->
  reportEach env opts results rs w = (Ok tt, w') ->
  cout w' = cout w +:+ String.concat "" (map (reportText results) rs) /\
  files w' = files w.
Proof.
  intros Hout. revert w. induction rs as [|r rs IH]; intros w Hrun.
  - injection Hrun as <-. by rewrite string_app_nil_r.
  - simpl in Hrun. unfold bind in Hrun.
    destruct (reportWith_frame r w) as (_ & _ & Hc & _).
    destruct (reportWith env opts results r w) as [[[]|e] w1]; [|done].
    destruct (Hc Hout) as [Hcout Hfiles]. simpl in *.
    destruct (IH w1 Hrun) as [-> ->]. rewrite Hcout, Hfiles.
    split; [|done]. rewrite string_app_assoc. f_equal.
    destruct rs; simpl; [by rewrite string_app_nil_r|done].
Qed.

End Reporting.

(** ** Whole runs *)

Section Runs.

Context {codes : ExitCodeValues} {methods : ResultsMethods}.
Variable env : Env.
Variable opts : Options.

Lemma main_reporting (w w0 : World) :
  reachesReporting env opts w w0 ->
  main env opts w =
    match reportEach env opts (getResults opts w0) (reporters w0) w0 with
    | (Throw e, w') => (ERROR_WHILE_REPORTING, printErrorLine e w')
    | (Ok _, w') => handleExit opts (getResults opts w0) w'
    end.
Proof.
  intros (Hparse & w1 & Hprep & Hrun). unfold main.
  rewrite Hparse, Hprep. cbv beta iota. rewrite exit_value_SUCCESS.
  change (negb (0 =? 0)%Z) with false. cbv beta iota. by rewrite Hrun.
Qed.

Lemma handleExit_trace (results : Results) (w : World) :
  trace (snd (handleExit opts results w)) = trace w.
Proof.
  rewrite handleExit_cases. destruct (hasErrors results); [done|].
  by destruct (numberOfViolationsExceedThreshold opts results).
Qed.

Lemma startup_event_run_event (e : Event) :
  startup_event e -> run_event opts e.
Proof. by destruct e. Qed.

(** Every call of a run is one the configuration allows. *)
Lemma main_extends (w : World) :
  extends (run_event opts) w (snd (main env opts w)).
Proof.
  unfold main. destruct (parserError env); [by apply extends_same|].
  pose proof (prepare_extends env opts w) as Hprep.
  apply (extends_weaken _ _ _ _ startup_event_run_event) in Hprep.
  destruct (prepare env opts w) as [status w1]; simpl in Hprep.
  destruct (negb (exit_value status =? 0)%Z); [done|].
  eapply extends_trans; [exact Hprep|].
  set (w2 := if showEnabledRules opts then snd (listRules env w1) else w1).
  assert (extends (run_event opts) w1 w2) as Hlist.
  { apply extends_same. subst w2. by destruct (showEnabledRules opts). }
  eapply extends_trans; [exact Hlist|].
  assert (extends (run_event opts) w2 (snd (runDriver env w2))) as Hrun.
  { unfold runDriver.
    destruct (driver_run env _ (collector w2)) as [c e].
    rewrite finish_snd. by apply extends_emit. }
  destruct (runDriver env w2) as [[[]|e] w3]; simpl in Hrun.
  - eapply extends_trans; [exact Hrun|].
    pose proof (reportEach_extends env opts (getResults opts w3)
                  (reporters w3) w3) as Hloop.
    destruct (reportEach env opts (getResults opts w3) (reporters w3) w3)
      as [[[]|e] w4]; simpl in Hloop.
    + eapply extends_trans; [exact Hloop|].
      apply extends_same, handleExit_trace.
    + eapply extends_trans; [exact Hloop|by apply extends_same].
  - eapply extends_trans; [exact Hrun|by apply extends_same].
Qed.

End Runs.

(** C8. Without an output path configured, [outStream] returns the standard
    output stream for every reporter and leaves the world as it was, and
    [disposeOutStream] closes nothing, whatever stream it is given.  In
    every run of [main], under any configuration, the standard output
    stream is never closed; files are opened, written and closed only when
    an output path is configured, and without one every report goes to the
    standard output stream. *)
Theorem C8_stdout_is_shared_and_never_closed
    (codes : ExitCodeValues) (methods : ResultsMethods)
    (env : Env) (opts : Options) (w : World) :
  (hasOutputPath opts = false ->
     (forall reporter w', outStream env opts reporter w' = (Ok Cout, w')) /\
     (forall out w', disposeOutStream opts out w' = (Ok tt, w'))) /\
  (exists events,
     trace (snd (main env opts w)) = trace w ++ events /\
     (EvClose Cout ∉ events) /\
     Forall (run_event opts) events /\
     (hasOutputPath opts = false ->
        forall e, e ∈ events ->
          match e with
          | EvOpen _ _ | EvClose _ => False
          | EvReport _ out => out = Cout
          | _ => True
          end)).
Proof.
  split.
  - intros Hout. split.
    + intros reporter w'. by apply outStream_cout.
    + intros out w'. unfold disposeOutStream. rewrite Hout. by destruct out.
  - destruct (main_extends env opts w) as (events & Htrace & Hall).
    exists events. split; [done|]. rewrite Forall_forall in Hall.
    split; [|split].
    + intros Hin. by apply Hall in Hin.
    + by apply Forall_forall.
    + intros Hout e He. apply Hall in He.
      destruct e as [| | | |n [|p]|[|p]]; simpl in *; congruence.
Qed.

Lemma outputFor_inj (opts : Options) (q r : Reporter) :
  outputFor opts q = outputFor opts r -> name q = name r.
Proof.
  unfold outputFor. rewrite <- !string_app_assoc. by intros ?%(inj _).
Qed.

(** The first reporter of the loop that fails, when there is one. *)
Lemma first_failure (env : Env) (opts : Options) (results : Results)
    (rs : list Reporter) :
  Exists (fails env opts results) rs ->
  exists pre r post,
    rs = pre ++ r :: post /\
    Forall (completes env opts results) pre /\
    fails env opts results r.
Proof.
  induction rs as [|q rs IH]; intros Hex; [by inversion Hex|].
  destruct (completes_or_fails env opts results q) as [Hq|Hq].
  - assert (Exists (fails env opts results) rs) as Hrest.
    { inversion Hex as [? ? Hhd|]; subst; [|done].
      exfalso. destruct Hq as [Hopen Hrep].
      destruct Hhd as [[Hout Hno]|Hthrow]; [|done].
      rewrite (Hopen Hout) in Hno. discriminate. }
    destruct (IH Hrest) as (pre & r & post & -> & Hpre & Hr).
    exists (q :: pre), r, post. split; [done|]. split; [by constructor|done].
  - exists [], q, rs. by repeat split.
Qed.

(** The run from the first failing reporter [r] of [pre ++ r :: post]. *)
Lemma first_failure_ends_the_loop
    (codes : ExitCodeValues) (methods : ResultsMethods)
    (env : Env) (opts : Options) (w w0 : World)
    (pre post : list Reporter) (r : Reporter) :
  let results := getResults opts w0 in
  reachesReporting env opts w w0 ->
  reporters w0 = pre ++ r :: post ->
  Forall (completes env opts results) pre ->
  fails env opts results r ->
  exists w1 w2 e,
    reportEach env opts results pre w0 = (Ok tt, w1) /\
    reportWith env opts results r w1 = (Throw e, w2) /\
    main env opts w = (ERROR_WHILE_REPORTING, printErrorLine e w2) /\
    (exists events,
       trace w2 = trace w1 ++ events /\ failedTurn opts r events) /\
    (forall p, p <> outputFor opts r -> files w2 !! p = files w1 !! p) /\
    (hasOutputPath opts = true ->
       forall i q, pre !! i = Some q ->
         Forall (fun x => name x <> name q) (drop (S i) pre ++ [r]) ->
         files w2 !! outputFor opts q = Some (reportText results q)) /\
    (hasOutputPath opts = false ->
       cout w2 = cout w0 +:+ String.concat "" (map (reportText results) pre)
                 +:+ reportText results r /\
       files w2 = files w0) /\
    (hasOutputPath opts = true ->
     canOpen env (outputFor opts r) = false ->
       e = "cannot open report output file " +:+ outputFor opts r /\
       files w2 = files w1 /\ cout w2 = cout w1).
Proof.
  intros results Hreach Hrs Hpre Hfail.
  destruct (reportEach_completes env opts results pre w0 Hpre) as [w1 Hw1].
  destruct (reportWith_fails env opts results r w1 Hfail) as (e & w2 & Hw2).
  exists w1, w2, e. split; [done|]. split; [done|].
  pose proof (reportWith_frame env opts results r w1) as Hframe.
  rewrite Hw2 in Hframe. simpl in Hframe.
  destruct Hframe as (Hfiles & _ & Hcout & _).
  split; [|split; [|split; [|split; [|split]]]].
  - rewrite (main_reporting env opts w w0 Hreach), Hrs, reportEach_app.
    fold results. rewrite Hw1. simpl. unfold bind. by rewrite Hw2.
  - by eapply reportWith_failed_turn.
  - done.
  - intros Hout i q Hq Hlater. apply Forall_app in Hlater as [Hlater Hr].
    rewrite Hfiles.
    + by eapply reportEach_file_content.
    + intros Heq. apply outputFor_inj in Heq.
      apply Forall_inv in Hr. exact (Hr (eq_sym Heq)).
  - intros Hout. destruct (Hcout Hout) as [-> ->].
    destruct (reportEach_cout env opts results pre w0 w1 Hout Hw1) as [-> ->].
    split; [|done]. by rewrite string_app_assoc.
  - intros Hout Hopen. rewrite reportWith_unopened in Hw2 by done.
    by injection Hw2 as <- <-.
Qed.

(** C4. In a run that reaches the reporting loop, if some active reporter
    fails (its derived output path cannot be opened, or its [report] call
    throws), let [r] be the first one that does, after the reporters [pre]
    and before the reporters [post].  The turns of [pre] complete, the turn
    of [r] throws, and [main] returns [ERROR_WHILE_REPORTING] in the world
    that turn left, with the error line printed: nothing is called after
    the failing turn, so no reporter of [post] runs.  What the earlier
    reporters produced stays: no file other than the one derived for [r]
    differs from what the turns of [pre] left; with an output path
    configured, the file of each earlier reporter whose name no later
    reporter up to [r] has holds the whole text it wrote; without one, the
    standard output holds the texts of [pre] in order, followed by what [r]
    wrote before failing.  When the failure is that the path cannot be
    opened, the exception names the path and no file is touched. *)
Theorem C4_failed_reporter_ends_the_loop
    (codes : ExitCodeValues) (methods : ResultsMethods)
    (env : Env) (opts : Options) (w w0 : World) :
  let results := getResults opts w0 in
  reachesReporting env opts w w0 ->
  Exists (fails env opts results) (reporters w0) ->
  exists pre r post w1 w2 e,
    reporters w0 = pre ++ r :: post /\
    Forall (completes env opts results) pre /\
    fails env opts results r /\
    reportEach env opts results pre w0 = (Ok tt, w1) /\
    reportWith env opts results r w1 = (Throw e, w2) /\
    main env opts w = (ERROR_WHILE_REPORTING, printErrorLine e w2) /\
    (exists events,
       trace w2 = trace w1 ++ events /\ failedTurn opts r events) /\
    (forall p, p <> outputFor opts r -> files w2 !! p = files w1 !! p) /\
    (hasOutputPath opts = true ->
       forall i q, pre !! i = Some q ->
         Forall (fun x => name x <> name q) (drop (S i) pre ++ [r]) ->
         files w2 !! outputFor opts q = Some (reportText results q)) /\
    (hasOutputPath opts = false ->
       cout w2 = cout w0 +:+ String.concat "" (map (reportText results) pre)
                 +:+ reportText results r /\
       files w2 = files w0) /\
    (hasOutputPath opts = true ->
     canOpen env (outputFor opts r) = false ->
       e = "cannot open report output file " +:+ outputFor opts r /\
       files w2 = files w1 /\ cout w2 = cout w1).
Proof.
  intros results Hreach Hex.
  destruct (first_failure env opts results _ Hex)
    as (pre & r & post & Hrs & Hpre & Hr).
  destruct (first_failure_ends_the_loop codes methods env opts w w0 pre post r
              Hreach Hrs Hpre Hr) as (w1 & w2 & e & Hrest).
  exists pre, r, post, w1, w2, e. by repeat (split; [done|]).
Qed.

(** Two reporters with an output template; the first writes its file, the
    path of the second cannot be opened. *)
Lemma C4_witness :
  reachesReporting twoReporterHost templateOptions emptyWorld analysedWorld /\
  Exists (fails twoReporterHost templateOptions
            (getResults templateOptions analysedWorld))
    (reporters analysedWorld) /\
  fst (@main enum_values collectorViews twoReporterHost templateOptions
         emptyWorld) = ERROR_WHILE_REPORTING.
Proof.
  assert (reachesReporting twoReporterHost templateOptions emptyWorld
            analysedWorld) as Hreach.
  { split; [reflexivity|].
    exists (set_reporters [lineReporter "json"; lineReporter "xml"]
              (emit EvLoadReporter
                 (emit (EvLoadRules "rules/basic.dylib")
                    (set_ruleSet ["long line"] emptyWorld)))).
    split; vm_compute; reflexivity. }
  assert (Exists (fails twoReporterHost templateOptions
                    (getResults templateOptions analysedWorld))
            (reporters analysedWorld)) as Hex.
  { apply Exists_cons_tl, Exists_cons_hd. left.
    split; vm_compute; reflexivity. }
  split; [exact Hreach|]. split; [exact Hex|].
  destruct (C4_failed_reporter_ends_the_loop enum_values collectorViews
              twoReporterHost templateOptions emptyWorld analysedWorld
              Hreach Hex)
    as (pre & r & post & w1 & w2 & e & _ & _ & _ & _ & _ & Hmain & _).
  by rewrite Hmain.
Defined.

(** The end of that run: the file of the first reporter is complete, the
    file of the second does not exist, and the error names the path. *)
Example two_reporters_second_unwritable :
  let final := snd (@main enum_values collectorViews twoReporterHost
                      templateOptions emptyWorld) in
  files final !! "out/report.json" = Some ("report in json" +:+ endl) /\
  files final !! "out/report.xml" = None /\
  cerr final
    = endl +:+ "oclint: error: cannot open report output file out/report.xml"
      +:+ endl /\
  trace final
    = [EvLoadRules "rules/basic.dylib"; EvLoadReporter; EvAnalysis;
       EvOpen "out/report.json" true;
       EvReport "json" (FileStream "out/report.json");
       EvClose (FileStream "out/report.json");
       EvOpen "out/report.xml" false].
Proof. vm_compute. by repeat split. Qed.

(** Two reporters without an output path. *)
Lemma C8_witness :
  hasOutputPath stdoutOptions = false /\
  outStream twoReporterHost stdoutOptions (lineReporter "json") emptyWorld
    = (Ok Cout, emptyWorld) /\
  disposeOutStream stdoutOptions (Some Cout) emptyWorld = (Ok tt, emptyWorld).
Proof.
  split; [reflexivity|].
  destruct (proj1 (C8_stdout_is_shared_and_never_closed enum_values
                     collectorViews twoReporterHost stdoutOptions emptyWorld)
              eq_refl) as [Hout Hdispose].
  split; [apply Hout|apply Hdispose].
Defined.

(** The calls of that run: both reports go to the standard output stream,
    which is not closed. *)
Example stdout_run_trace :
  trace (snd (@main enum_values collectorViews twoReporterHost stdoutOptions
                emptyWorld))
  = [EvLoadRules "rules/basic.dylib"; EvLoadReporter; EvAnalysis;
     EvReport "json" Cout; EvReport "xml" Cout].
Proof. vm_compute. reflexivity. Qed.

(** Three reporters without an output path, the second throwing after it
    wrote part of its text: the first text stays on the standard output,
    the third reporter is never called. *)
Example second_of_three_throws :
  let run := @main enum_values collectorViews throwingHost threeReports
               emptyWorld in
  fst run = ERROR_WHILE_REPORTING /\
  cout (snd run) = "report in json" +:+ endl +:+ "report in " /\
  cerr (snd run) = endl +:+ "oclint: error: cannot render xml" +:+ endl /\
  trace (snd run)
    = [EvLoadRules "rules/basic.dylib"; EvLoadReporter; EvAnalysis;
       EvReport "json" Cout; EvReport "xml" Cout].
Proof. vm_compute. by repeat split. Qed.

(** ** Loading the rule paths *)

Lemma sameOutputs_refl (w : World) : sameOutputs w w.
Proof. by repeat split. Qed.

Lemma sameOutputs_trans (w1 w2 w3 : World) :
  sameOutputs w1 w2 -> sameOutputs w2 w3 -> sameOutputs w1 w3.
Proof.
  unfold sameOutputs. intros (-> & -> & -> & -> & ->) (-> & -> & -> & -> & ->).
  by repeat split.
Qed.

Lemma dynamicLoadRules_effect (env : Env) (rulePath : string) (w : World) :
  dynamicLoadRules env rulePath w =
    finish (snd (dynamicLoadRules_result env rulePath (ruleSet w)))
      (emit (EvLoadRules rulePath)
         (set_ruleSet (fst (dynamicLoadRules_result env rulePath (ruleSet w)))
            w)).
Proof.
  unfold dynamicLoadRules.
  by destruct (dynamicLoadRules_result env rulePath (ruleSet w)).
Qed.

Lemma loadEachRulePath_ok (env : Env) (paths : list string) (w w' : World) :
  loadEachRulePath env paths w = (Ok tt, w') ->
  trace w' = trace w ++ map EvLoadRules paths /\
  ruleSet w' = registryAfter env paths (ruleSet w) /\
  sameOutputs w w'.
Proof.
  revert w. induction paths as [|p paths IH]; intros w.
  - intros [= <-]. simpl. rewrite app_nil_r. by repeat split.
  - simpl. unfold bind. rewrite dynamicLoadRules_effect.
    destruct (dynamicLoadRules_result env p (ruleSet w)) as [rules [e|]];
      simpl; [done|].
    intros Hrest. destruct (IH _ Hrest) as (Htrace & Hrules & Hsame).
    simpl in *. split; [by rewrite Htrace, <- app_assoc|].
    split; [done|]. exact Hsame.
Qed.

Lemma loadEachRulePath_throw (env : Env) (paths : list string)
    (w w' : World) (e : exn) :
  loadEachRulePath env paths w = (Throw e, w') ->
  exists pre p post w1,
    paths = pre ++ p :: post /\
    loadEachRulePath env pre w = (Ok tt, w1) /\
    dynamicLoadRules_result env p (ruleSet w1) = (ruleSet w', Some e) /\
    trace w' = trace w1 ++ [EvLoadRules p] /\
    sameOutputs w1 w'.
Proof.
  revert w. induction paths as [|p paths IH]; intros w; [done|].
  simpl. unfold bind. rewrite dynamicLoadRules_effect.
  destruct (dynamicLoadRules_result env p (ruleSet w)) as [rules [e'|]] eqn:Hp;
    simpl.
  - intros [= <- <-]. exists [], p, paths, w. simpl.
    by repeat split.
  - intros Hrest.
    destruct (IH _ Hrest) as (pre & q & post & w1 & -> & Hpre & Hq & Ht & Hs).
    exists (p :: pre), q, post, w1. split; [done|]. split; [|done].
    simpl. unfold bind. rewrite dynamicLoadRules_effect, Hp. simpl. exact Hpre.
Qed.

(** X1. [consumeArgRulesPath] loads the configured rule paths in order.
    When it ends normally every path was loaded once, and the registry is
    what the successive loads made of it.  When it throws, the paths up to
    the one whose load threw were loaded and none after it, and the registry
    is left as the throwing load left it: what the earlier paths registered
    stays.  Nothing but the registry changes. *)
Theorem X1_rule_paths_load_in_order_until_a_failure
    (env : Env) (opts : Options) (w w' : World) :
  (consumeArgRulesPath env opts w = (Ok tt, w') ->
     trace w' = trace w ++ map EvLoadRules (rulesPath opts) /\
     ruleSet w' = registryAfter env (rulesPath opts) (ruleSet w) /\
     sameOutputs w w') /\
  (forall e, consumeArgRulesPath env opts w = (Throw e, w') ->
     exists pre p post,
       rulesPath opts = pre ++ p :: post /\
       trace w' = trace w ++ map EvLoadRules (pre ++ [p]) /\
       dynamicLoadRules_result env p (registryAfter env pre (ruleSet w))
         = (ruleSet w', Some e) /\
       sameOutputs w w').
Proof.
  unfold consumeArgRulesPath. split.
  - apply loadEachRulePath_ok.
  - intros e Hthrow.
    destruct (loadEachRulePath_throw _ _ _ _ _ Hthrow)
      as (pre & p & post & w1 & Hpaths & Hpre & Hp & Htrace & Hsame).
    destruct (loadEachRulePath_ok _ _ _ _ Hpre) as (Ht1 & Hr1 & Hs1).
    exists pre, p, post. split; [done|]. split; [|split].
    + by rewrite Htrace, Ht1, map_app, <- app_assoc.
    + by rewrite <- Hr1.
    + by eapply sameOutputs_trans.
Qed.

(** ** The stages of [prepare] *)

Lemma loadReporter_effect (env : Env) (opts : Options) (w : World) :
  loadReporter env opts w =
    match resolveReporters env (reportTypes opts) with
    | Ok selected => (Ok tt, set_reporters selected (emit EvLoadReporter w))
    | Throw e => (Throw e, emit EvLoadReporter w)
    end.
Proof. reflexivity. Qed.

(** The four ways through [prepare]. *)
Lemma prepare_cases (env : Env) (opts : Options) (w : World) :
  (exists e w1,
     consumeArgRulesPath env opts w = (Throw e, w1) /\
     prepare env opts w = (RULE_NOT_FOUND, printErrorLine e w1)) \/
  (exists w1,
     consumeArgRulesPath env opts w = (Ok tt, w1) /\
     numberOfRules w1 <= 0 /\
     prepare env opts w
       = (RULE_NOT_FOUND, printErrorLine "no rule loaded" w1)) \/
  (exists w1 e,
     consumeArgRulesPath env opts w = (Ok tt, w1) /\
     0 < numberOfRules w1 /\
     loadReporter env opts w1 = (Throw e, emit EvLoadReporter w1) /\
     prepare env opts w
       = (REPORTER_NOT_FOUND, printErrorLine e (emit EvLoadReporter w1))) \/
  (exists w1 w2,
     consumeArgRulesPath env opts w = (Ok tt, w1) /\
     0 < numberOfRules w1 /\
     loadReporter env opts w1 = (Ok tt, w2) /\
     trace w2 = trace w1 ++ [EvLoadReporter] /\
     ruleSet w2 = ruleSet w1 /\ collector w2 = collector w1 /\
     files w2 = files w1 /\ cout w2 = cout w1 /\ cerr w2 = cerr w1 /\
     prepare env opts w = (SUCCESS, w2)).
Proof.
  unfold prepare.
  destruct (consumeArgRulesPath env opts w) as [[[]|e] w1]; [|left; eauto].
  right. destruct (Z.leb_spec (numberOfRules w1) 0) as [Hle|Hlt];
    [left; eauto|].
  right. rewrite loadReporter_effect.
  destruct (resolveReporters env (reportTypes opts)) as [selected|e] eqn:Hres.
  - right. eexists w1, _. split; [done|]. split; [done|].
    split; [by rewrite loadReporter_effect, Hres|]. by repeat split.
  - left. exists w1, e. split; [done|]. split; [done|].
    split; [by rewrite loadReporter_effect, Hres|done].
Qed.

(** X2. When [prepare] fails with [RULE_NOT_FOUND], whether a rule path
    failed to load or no rule ended up registered, [loadReporter] was not
    called: the only calls made are rule loads, the selected reporters are
    untouched, and exactly one error line went to the standard error
    channel. *)
Theorem X2_rule_failure_skips_reporter_loading
    (env : Env) (opts : Options) (w : World) :
  fst (prepare env opts w) = RULE_NOT_FOUND ->
  let w' := snd (prepare env opts w) in
  (exists loaded,
     trace w' = trace w ++ map EvLoadRules loaded /\
     loaded `prefix_of` rulesPath opts) /\
  reporters w' = reporters w /\
  files w' = files w /\ cout w' = cout w /\
  exists errorMessage, cerr w' = cerr w +:+ errorLine errorMessage.
Proof.
  intros Hstatus.
  destruct (prepare_cases env opts w)
    as [(e & w1 & Hload & Hprep)|[(w1 & Hload & Hzero & Hprep)
       |[(w1 & e & _ & _ & _ & Hprep)|(w1 & w2 & Hprep)]]];
    [| |rewrite Hprep in Hstatus; discriminate|].
  - rewrite Hprep. simpl.
    destruct (loadEachRulePath_throw _ _ _ _ _ Hload)
      as (pre & p & post & w0 & Hpaths & Hpre & _ & Htrace & Hsame).
    destruct (loadEachRulePath_ok _ _ _ _ Hpre) as (Ht0 & _ & Hs0).
    destruct (sameOutputs_trans _ _ _ Hs0 Hsame) as (Hr & _ & Hf & Hc & He).
    split; [|rewrite Hr, Hf, Hc, He; repeat split; by exists e].
    exists (pre ++ [p]). split.
    + by rewrite Htrace, Ht0, map_app, <- app_assoc.
    + exists post. by rewrite Hpaths, <- app_assoc.
  - rewrite Hprep. simpl.
    destruct (loadEachRulePath_ok _ _ _ _ Hload)
      as (Htrace & _ & Hr & _ & Hf & Hc & He).
    split; [|rewrite Hr, Hf, Hc, He; repeat split;
              by exists "no rule loaded"].
    exists (rulesPath opts). split; [done|]. exists []. by rewrite app_nil_r.
  - destruct Hprep as (_ & _ & _ & _ & _ & _ & _ & _ & _ & Hprep).
    rewrite Hprep in Hstatus. discriminate.
Qed.

Lemma prepare_success_effect (env : Env) (opts : Options) (w w' : World) :
  prepare env opts w = (SUCCESS, w') ->
  trace w' = trace w ++ map EvLoadRules (rulesPath opts) ++ [EvLoadReporter] /\
  ruleSet w' = registryAfter env (rulesPath opts) (ruleSet w) /\
  0 < numberOfRules w' /\
  collector w' = collector w /\ files w' = files w /\
  cout w' = cout w /\ cerr w' = cerr w.
Proof.
  intros Hprep.
  destruct (prepare_cases env opts w)
    as [(e & w1 & _ & H)|[(w1 & _ & _ & H)|[(w1 & e & _ & _ & _ & H)
       |(w1 & w2 & Hload & Hpos & _ & Ht & Hr & Hc & Hf & Ho & He & H)]]];
    rewrite H in Hprep; try discriminate.
  injection Hprep as <-.
  destruct (loadEachRulePath_ok _ _ _ _ Hload)
    as (Ht1 & Hr1 & _ & Hc1 & Hf1 & Ho1 & He1).
  split; [by rewrite Ht, Ht1, <- app_assoc|].
  split; [by rewrite Hr|]. split; [unfold numberOfRules in *; by rewrite Hr|].
  by rewrite Hc, Hf, Ho, He.
Qed.

(** X3. When [prepare] returns [SUCCESS], every configured rule path was
    loaded once, in order, and [loadReporter] was called once after them;
    the registry passed the rule check with at least one rule, and the
    driver printed nothing and touched no file on the way. *)
Theorem X3_successful_prepare_loads_all_then_reporters
    (env : Env) (opts : Options) (w w' : World) :
  prepare env opts w = (SUCCESS, w') ->
  trace w' = trace w ++ map EvLoadRules (rulesPath opts) ++ [EvLoadReporter] /\
  ruleSet w' = registryAfter env (rulesPath opts) (ruleSet w) /\
  0 < numberOfRules w' /\
  collector w' = collector w /\ files w' = files w /\
  cout w' = cout w /\ cerr w' = cerr w.
Proof. apply prepare_success_effect. Qed.

(** ** The ways through [main] *)

Section Ways.

Context {codes : ExitCodeValues} {methods : ResultsMethods}.
Variable env : Env.
Variable opts : Options.

Lemma prepare_status (w : World) :
  fst (prepare env opts w) = SUCCESS \/
  fst (prepare env opts w) = RULE_NOT_FOUND \/
  fst (prepare env opts w) = REPORTER_NOT_FOUND.
Proof.
  destruct (prepare_cases env opts w)
    as [(e & w1 & _ & ->)|[(w1 & _ & _ & ->)|[(w1 & e & _ & _ & _ & ->)
       |(w1 & w2 & _ & _ & _ & _ & _ & _ & _ & _ & _ & ->)]]]; auto.
Qed.

Lemma runDriver_effect (w : World) :
  runDriver env w =
    finish
      (snd (driver_run env (filteredRuleNames env (ruleSet w)) (collector w)))
      (emit EvAnalysis
         (set_collector
            (fst (driver_run env (filteredRuleNames env (ruleSet w))
                    (collector w))) w)).
Proof.
  unfold runDriver.
  by destruct (driver_run env (filteredRuleNames env (ruleSet w))
                (collector w)).
Qed.

(** The world in which the analysis starts, after a successful start-up
    that ended in [w1]. *)
Lemma analysis_start (w1 : World) :
  let listed := if showEnabledRules opts then snd (listRules env w1) else w1 in
  trace listed = trace w1 /\ ruleSet listed = ruleSet w1 /\
  reporters listed = reporters w1 /\ collector listed = collector w1 /\
  files listed = files w1 /\ cerr listed = cerr w1 /\
  cout listed =
    if showEnabledRules opts
    then cout w1 +:+ enabledRulesText env (ruleSet w1) else cout w1.
Proof. by destruct (showEnabledRules opts). Qed.

(** A run ends in the parser, in [prepare], in the analysis, or in or after
    the reporting loop. *)
Lemma main_cases (w : World) :
  (exists err,
     parserError env = Some err /\
     main env opts w = (COMMON_OPTIONS_PARSER_ERRORS, write_cerr err w)) \/
  (parserError env = None /\
   fst (prepare env opts w) <> SUCCESS /\
   main env opts w = prepare env opts w) \/
  (parserError env = None /\
   exists w1 e w2,
     prepare env opts w = (SUCCESS, w1) /\
     runDriver env
       (if showEnabledRules opts then snd (listRules env w1) else w1)
     = (Throw e, w2) /\
     main env opts w = (ERROR_WHILE_PROCESSING, printErrorLine e w2)) \/
  (exists w0,
     reachesReporting env opts w w0 /\
     main env opts w =
       match reportEach env opts (getResults opts w0) (reporters w0) w0 with
       | (Throw e, w') => (ERROR_WHILE_REPORTING, printErrorLine e w')
       | (Ok _, w') => handleExit opts (getResults opts w0) w'
       end).
Proof.
  destruct (parserError env) as [err|] eqn:Hparse.
  { left. exists err. split; [done|]. unfold main. by rewrite Hparse. }
  right. destruct (prepare env opts w) as [status w1] eqn:Hprep.
  destruct (decide (status = SUCCESS)) as [->|Hfail].
  - right.
    set (listed := if showEnabledRules opts then snd (listRules env w1)
                   else w1).
    destruct (runDriver env listed) as [[[]|e] w2] eqn:Hrun.
    + right. exists w2.
      assert (reachesReporting env opts w w2) as Hreach
        by (split; [done|]; by exists w1).
      split; [done|]. by apply main_reporting.
    + left. split; [done|]. exists w1, e, w2. split; [done|]. split; [done|].
      unfold main. rewrite Hparse, Hprep. cbv beta iota.
      rewrite exit_value_SUCCESS. change (negb (0 =? 0)%Z) with false.
      cbv beta iota. fold listed. by rewrite Hrun.
  - left. split; [done|]. split; [done|]. rewrite <- Hprep.
    apply main_stops_after_failed_prepare; [done|]. by rewrite Hprep.
Qed.

Lemma reachesReporting_unique (w w0 w0' : World) :
  reachesReporting env opts w w0 -> reachesReporting env opts w w0' ->
  w0 = w0'.
Proof.
  intros (_ & w1 & Hp & Hr) (_ & w1' & Hp' & Hr').
  rewrite Hp in Hp'. injection Hp' as <-. rewrite Hr in Hr'.
  by injection Hr'.
Qed.

Lemma handleExit_status (results : Results) (w : World) :
  fst (handleExit opts results w) = COMPILATION_ERRORS \/
  fst (handleExit opts results w) = VIOLATIONS_EXCEED_THRESHOLD \/
  fst (handleExit opts results w) = SUCCESS.
Proof.
  rewrite handleExit_cases. destruct (hasErrors results); [auto|].
  destruct (numberOfViolationsExceedThreshold opts results); auto.
Qed.

Lemma completes_not_fails (results : Results) (r : Reporter) :
  completes env opts results r -> ~ fails env opts results r.
Proof.
  intros [Hopen Hrep] [[Hout Hno]|Hthrow]; [|done].
  rewrite (Hopen Hout) in Hno. discriminate.
Qed.

Lemma all_complete_or_some_fails (results : Results) (rs : list Reporter) :
  Forall (completes env opts results) rs \/
  Exists (fails env opts results) rs.
Proof.
  induction rs as [|r rs [IH|IH]]; [by left| |by right; constructor].
  destruct (completes_or_fails env opts results r);
    [left|right]; by constructor.
Qed.

End Ways.

(** ** What the reporting loop leaves alone *)

Section LoopFrame.

Variable env : Env.
Variable opts : Options.
Variable results : Results.

Lemma reportEach_frame (rs : list Reporter) (w : World) :
  let w' := snd (reportEach env opts results rs w) in
  ruleSet w' = ruleSet w /\ reporters w' = reporters w /\
  collector w' = collector w /\ cerr w' = cerr w /\
  (hasOutputPath opts = true -> cout w' = cout w) /\
  (hasOutputPath opts = false -> files w' = files w).
Proof.
  revert w. induction rs as [|r rs IH]; intros w; [by repeat split|].
  simpl. unfold bind.
  destruct (reportWith_frame env opts results r w)
    as (_ & Hcout & Hfiles & Hr & Hrep & Hcol & Herr).
  destruct (reportWith env opts results r w) as [[[]|e] w1]; simpl in *.
  - destruct (IH w1) as (-> & -> & -> & -> & Hc & Hf).
    repeat split; try done.
    + intros Hout. by rewrite Hc, Hcout.
    + intros Hout. rewrite Hf by done. by apply Hfiles.
  - repeat split; try done. intros Hout. by apply Hfiles.
Qed.

(** A loop in which every turn completes makes the calls of its turns, one
    reporter after the other. *)
Lemma reportEach_completed_trace (rs : list Reporter) (w w' : World) :
  reportEach env opts results rs w = (Ok tt, w') ->
  trace w' = trace w ++ concat (map (completedTurn opts) rs).
Proof.
  revert w. induction rs as [|r rs IH]; intros w.
  - intros [= <-]. simpl. by rewrite app_nil_r.
  - simpl. unfold bind.
    destruct (reportWith env opts results r w) as [[[]|e] w1] eqn:Hr; [|done].
    intros Hrest. rewrite (IH _ Hrest), app_assoc. f_equal.
    unfold completedTurn. destruct (hasOutputPath opts) eqn:Hout.
    + destruct (canOpen env (outputFor opts r)) eqn:Hopen.
      * rewrite reportWith_file in Hr by done.
        destruct (reportError results r); [done|].
        injection Hr as <-. simpl. by rewrite <- !app_assoc.
      * by rewrite reportWith_unopened in Hr.
    + rewrite reportWith_cout in Hr by done.
      destruct (reportError results r); [done|]. by injection Hr as <-.
Qed.

(** A loop that throws had a reporter that fails. *)
Lemma reportEach_throw_fails (rs : list Reporter) (w w' : World) (e : exn) :
  reportEach env opts results rs w = (Throw e, w') ->
  Exists (fails env opts results) rs.
Proof.
  intros Hthrow.
  destruct (all_complete_or_some_fails env opts results rs) as [Hall|Hex];
    [|done].
  destruct (reportEach_completes env opts results rs w Hall) as [w1 Hw1].
  congruence.
Qed.

Lemma reportEach_fails_throws (rs : list Reporter) (w : World) :
  Exists (fails env opts results) rs ->
  exists e w', reportEach env opts results rs w = (Throw e, w').
Proof.
  intros Hex.
  destruct (first_failure env opts results rs Hex)
    as (pre & r & post & -> & Hpre & Hr).
  destruct (reportEach_completes env opts results pre w Hpre) as [w1 Hw1].
  destruct (reportWith_fails env opts results r w1 Hr) as (e & w2 & Hw2).
  exists e, w2. rewrite reportEach_app, Hw1. simpl. unfold bind.
  by rewrite Hw2.
Qed.

End LoopFrame.

(** ** Exit statuses and the phase that ended the run *)

Section Statuses.

Context {codes : ExitCodeValues} {methods : ResultsMethods}.
Variable env : Env.
Variable opts : Options.

(** The status of a run that reached the reporting loop in [w0]. *)
Lemma reporting_status (w w0 : World) :
  reachesReporting env opts w w0 ->
  let results := getResults opts w0 in
  (Exists (fails env opts results) (reporters w0) /\
   fst (main env opts w) = ERROR_WHILE_REPORTING) \/
  (Forall (completes env opts results) (reporters w0) /\
   exists w',
     reportEach env opts results (reporters w0) w0 = (Ok tt, w') /\
     main env opts w = handleExit opts results w').
Proof.
  intros Hreach results. rewrite (main_reporting env opts w w0 Hreach).
  fold results.
  destruct (all_complete_or_some_fails env opts results (reporters w0))
    as [Hall|Hex].
  - right. split; [done|].
    destruct (reportEach_completes env opts results _ w0 Hall) as [w' Hw'].
    exists w'. by rewrite Hw'.
  - left. split; [done|].
    destruct (reportEach_fails_throws env opts results _ w0 Hex)
      as (e & w' & ->). done.
Qed.

Lemma prepare_failure_status (w : World) :
  fst (prepare env opts w) <> SUCCESS ->
  fst (prepare env opts w) = RULE_NOT_FOUND \/
  fst (prepare env opts w) = REPORTER_NOT_FOUND.
Proof. destruct (prepare_status env opts w) as [?|[?|?]]; auto. done. Qed.

End Statuses.


Section Outcomes.

Context {codes : ExitCodeValues} {methods : ResultsMethods}.
Variable env : Env.
Variable opts : Options.

Lemma all_complete_none_fails (results : Results) (rs : list Reporter) :
  Forall (completes env opts results) rs ->
  ~ Exists (fails env opts results) rs.
Proof.
  intros Hall Hex. rewrite Forall_forall in Hall. rewrite Exists_exists in Hex.
  destruct Hex as (r & Hr & Hfail).
  by apply (completes_not_fails env opts results r); auto.
Qed.

(** A run either ends before the reporting loop, with one of the four
    statuses of the earlier phases, or reaches the loop. *)
Lemma early_exit_or_reporting (w : World) :
  ((fst (main env opts w) = COMMON_OPTIONS_PARSER_ERRORS \/
    fst (main env opts w) = RULE_NOT_FOUND \/
    fst (main env opts w) = REPORTER_NOT_FOUND \/
    fst (main env opts w) = ERROR_WHILE_PROCESSING) /\
   forall w0, ~ reachesReporting env opts w w0) \/
  (exists w0, reachesReporting env opts w w0).
Proof.
  destruct (main_cases env opts w)
    as [(err & Hparse & Hmain)|[(Hparse & Hfail & Hmain)
       |[(Hparse & w1 & e & w2 & Hprep & Hrun & Hmain)
        |(w0 & Hreach & _)]]]; [left|left|left|right; eauto].
  - rewrite Hmain. split; [auto|]. intros w0 [Hnone _]. congruence.
  - rewrite Hmain. split.
    + destruct (prepare_failure_status env opts w Hfail) as [-> | ->]; auto.
    + intros w0 (_ & w1 & Hprep & _). by rewrite Hprep in Hfail.
  - rewrite Hmain. split; [auto|].
    intros w0 (_ & w1' & Hprep' & Hrun').
    rewrite Hprep in Hprep'. injection Hprep' as <-. congruence.
Qed.

End Outcomes.

(** X5. In a run that reaches the reporting loop and in which every
    reporter completes, the turns are made in the order of the reporter
    list, each one opening, writing and closing its own file when an output
    path is configured and writing to the standard output otherwise; only
    then is the exit decision taken, so the status of the run is that of
    [handleExit] and the reports are complete also when it is a failure. *)
Theorem X5_completed_run_reports_in_order_then_decides
    (codes : ExitCodeValues) (methods : ResultsMethods)
    (env : Env) (opts : Options) (w w0 : World) :
  let results := getResults opts w0 in
  reachesReporting env opts w w0 ->
  Forall (completes env opts results) (reporters w0) ->
  exists w',
    reportEach env opts results (reporters w0) w0 = (Ok tt, w') /\
    main env opts w = handleExit opts results w' /\
    trace (snd (main env opts w))
      = trace w0 ++ concat (map (completedTurn opts) (reporters w0)) /\
    (hasOutputPath opts = false ->
       cout w'
         = cout w0
           +:+ String.concat "" (map (reportText results) (reporters w0))) /\
    (fst (main env opts w) = COMPILATION_ERRORS \/
     fst (main env opts w) = VIOLATIONS_EXCEED_THRESHOLD \/
     fst (main env opts w) = SUCCESS).
Proof.
  intros results Hreach Hall.
  destruct (reporting_status env opts w w0 Hreach)
    as [[Hex _]|(_ & w' & Hloop & Hmain)].
  { by destruct (all_complete_none_fails env opts results _ Hall). }
  exists w'. split; [done|]. split; [done|]. rewrite Hmain. split; [|split].
  - rewrite handleExit_trace. by eapply reportEach_completed_trace.
  - intros Hout. by eapply reportEach_cout.
  - apply handleExit_status.
Qed.

(** X6. [main] returns [ERROR_WHILE_REPORTING] exactly when the run reaches
    the reporting loop and some reporter of the list fails, that is, its
    derived output path cannot be opened or its [report] call throws. *)
Theorem X6_reporting_error_iff_a_reporter_fails
    (codes : ExitCodeValues) (methods : ResultsMethods)
    (env : Env) (opts : Options) (w : World) :
  fst (main env opts w) = ERROR_WHILE_REPORTING <->
  exists w0,
    reachesReporting env opts w w0 /\
    Exists (fails env opts (getResults opts w0)) (reporters w0).
Proof.
  split.
  - intros Hst.
    destruct (early_exit_or_reporting env opts w)
      as [[Hearly _]|[w0 Hreach]].
    { rewrite Hst in Hearly. by destruct Hearly as [?|[?|[?|?]]]. }
    exists w0. split; [done|].
    destruct (reporting_status env opts w w0 Hreach)
      as [[Hex _]|(_ & w' & _ & Hmain)]; [done|].
    rewrite Hmain in Hst.
    destruct (handleExit_status opts (getResults opts w0) w')
      as [H|[H|H]]; rewrite H in Hst; discriminate.
  - intros (w0 & Hreach & Hex).
    destruct (reporting_status env opts w w0 Hreach)
      as [[_ Hst]|(Hall & _)]; [done|].
    by destruct (all_complete_none_fails env opts _ _ Hall).
Qed.

(** X7. [main] returns [SUCCESS] exactly when every phase went through:
    the run reaches the reporting loop, every reporter completes, the view
    recorded no hard error and no count exceeds its ceiling. *)
Theorem X7_success_iff_every_phase_passes
    (codes : ExitCodeValues) (methods : ResultsMethods)
    (env : Env) (opts : Options) (w : World) :
  fst (main env opts w) = SUCCESS <->
  exists w0,
    reachesReporting env opts w w0 /\
    Forall (completes env opts (getResults opts w0)) (reporters w0) /\
    hasErrors (getResults opts w0) = false /\
    numberOfViolationsExceedThreshold opts (getResults opts w0) = false.
Proof.
  split.
  - intros Hst.
    destruct (early_exit_or_reporting env opts w)
      as [[Hearly _]|[w0 Hreach]].
    { rewrite Hst in Hearly. by destruct Hearly as [?|[?|[?|?]]]. }
    exists w0. split; [done|].
    destruct (reporting_status env opts w w0 Hreach)
      as [[_ Hrep]|(Hall & w' & _ & Hmain)]; [congruence|].
    split; [done|]. rewrite Hmain, handleExit_cases in Hst.
    destruct (hasErrors (getResults opts w0)); [done|].
    by destruct (numberOfViolationsExceedThreshold opts (getResults opts w0)).
  - intros (w0 & Hreach & Hall & Herr & Hex).
    destruct (reporting_status env opts w w0 Hreach)
      as [[Hfail _]|(_ & w' & _ & Hmain)].
    { by destruct (all_complete_none_fails env opts _ _ Hall). }
    by rewrite Hmain, handleExit_cases, Herr, Hex.
Qed.

(** ** The output channels over a whole run *)

Section Channels.

Context {codes : ExitCodeValues} {methods : ResultsMethods}.
Variable env : Env.
Variable opts : Options.

Lemma prepare_failure_effect (w : World) :
  fst (prepare env opts w) <> SUCCESS ->
  files (snd (prepare env opts w)) = files w /\
  cout (snd (prepare env opts w)) = cout w /\
  exists errorMessage,
    cerr (snd (prepare env opts w)) = cerr w +:+ errorLine errorMessage.
Proof.
  intros Hfail.
  destruct (prepare_cases env opts w)
    as [(e & w1 & Hload & Hprep)|[(w1 & Hload & _ & Hprep)
       |[(w1 & e & Hload & _ & _ & Hprep)
        |(w1 & w2 & _ & _ & _ & _ & _ & _ & _ & _ & _ & Hprep)]]];
    rewrite Hprep in *; simpl; [| | |done].
  - destruct (loadEachRulePath_throw _ _ _ _ _ Hload)
      as (pre & p & post & w0 & _ & Hpre & _ & _ & Hsame).
    destruct (loadEachRulePath_ok _ _ _ _ Hpre) as (_ & _ & Hs0).
    destruct (sameOutputs_trans _ _ _ Hs0 Hsame) as (_ & _ & -> & -> & ->).
    repeat split. by exists e.
  - destruct (loadEachRulePath_ok _ _ _ _ Hload)
      as (_ & _ & _ & _ & -> & -> & ->).
    repeat split. by exists "no rule loaded".
  - destruct (loadEachRulePath_ok _ _ _ _ Hload)
      as (_ & _ & _ & _ & -> & -> & ->).
    repeat split. by exists e.
Qed.

Lemma runDriver_frame (w : World) :
  let w' := snd (runDriver env w) in
  trace w' = trace w ++ [EvAnalysis] /\ ruleSet w' = ruleSet w /\
  reporters w' = reporters w /\ files w' = files w /\
  cout w' = cout w /\ cerr w' = cerr w.
Proof. rewrite runDriver_effect, finish_snd. by repeat split. Qed.

(** The world in which a run enters the reporting loop. *)
Lemma reaching_frame (w w0 : World) :
  reachesReporting env opts w w0 ->
  trace w0 = trace w ++ map EvLoadRules (rulesPath opts)
             ++ [EvLoadReporter; EvAnalysis] /\
  ruleSet w0 = registryAfter env (rulesPath opts) (ruleSet w) /\
  files w0 = files w /\ cerr w0 = cerr w /\
  cout w0 =
    if showEnabledRules opts
    then cout w +:+ enabledRulesText env (ruleSet w0) else cout w.
Proof.
  intros (_ & w1 & Hprep & Hrun).
  destruct (prepare_success_effect env opts w w1 Hprep)
    as (Ht & Hr & _ & _ & Hf & Hc & He).
  destruct (analysis_start env opts w1) as (Hlt & Hlr & _ & _ & Hlf & Hle & Hlc).
  set (listed := if showEnabledRules opts then snd (listRules env w1)
                 else w1) in *.
  clearbody listed.
  destruct (runDriver_frame listed) as (Hdt & Hdr & _ & Hdf & Hdc & Hde).
  rewrite Hrun in *. simpl in *.
  rewrite Hdt, Hdr, Hdf, Hdc, Hde, Hlt, Hlr, Hlf, Hle, Hlc, Ht, Hr, Hf, Hc, He.
  split; [by rewrite <- !app_assoc|]. by repeat split.
Qed.

Lemma analysis_failure_effect (w w1 w2 : World) (e : exn) :
  prepare env opts w = (SUCCESS, w1) ->
  runDriver env (if showEnabledRules opts then snd (listRules env w1) else w1)
    = (Throw e, w2) ->
  files w2 = files w /\ cerr w2 = cerr w /\
  cout w2 =
    if showEnabledRules opts
    then cout w +:+ enabledRulesText env (ruleSet w1) else cout w.
Proof.
  intros Hprep Hrun.
  destruct (prepare_success_effect env opts w w1 Hprep)
    as (_ & _ & _ & _ & Hf & Hc & He).
  destruct (analysis_start env opts w1) as (_ & _ & _ & _ & Hlf & Hle & Hlc).
  set (listed := if showEnabledRules opts then snd (listRules env w1)
                 else w1) in *.
  clearbody listed.
  destruct (runDriver_frame listed) as (_ & _ & _ & Hdf & Hdc & Hde).
  rewrite Hrun in *. simpl in *.
  by rewrite Hdf, Hdc, Hde, Hlf, Hle, Hlc, Hf, Hc, He.
Qed.

Lemma handleExit_frame (results : Results) (w : World) :
  files (snd (handleExit opts results w)) = files w /\
  cout (snd (handleExit opts results w)) = cout w.
Proof.
  rewrite handleExit_cases. destruct (hasErrors results); [done|].
  by destruct (numberOfViolationsExceedThreshold opts results).
Qed.

Lemma handleExit_diagnostic (results : Results) (w : World) :
  exists text,
    cerr (snd (handleExit opts results w)) = cerr w +:+ text /\
    diagnosticShape (fst (handleExit opts results w)) text.
Proof.
  rewrite handleExit_cases. destruct (hasErrors results).
  { exists "". by rewrite string_app_nil_r. }
  destruct (numberOfViolationsExceedThreshold opts results).
  - eexists. split; [|eexists; reflexivity]. simpl. unfold errorLine.
    by rewrite !string_app_assoc.
  - exists "". by rewrite string_app_nil_r.
Qed.

End Channels.

(** X8. What the driver itself writes to the standard error channel is
    decided by the exit status: nothing when [main] returns [SUCCESS] or
    [COMPILATION_ERRORS], exactly one error line when it returns
    [RULE_NOT_FOUND], [REPORTER_NOT_FOUND], [ERROR_WHILE_PROCESSING] or
    [ERROR_WHILE_REPORTING], and the threshold error line followed by the
    entries when it returns [VIOLATIONS_EXCEED_THRESHOLD]. *)
Theorem X8_one_diagnostic_per_failing_status
    (codes : ExitCodeValues) (methods : ResultsMethods)
    (env : Env) (opts : Options) (w : World) :
  exists text,
    cerr (snd (main env opts w)) = cerr w +:+ text /\
    diagnosticShape (fst (main env opts w)) text.
Proof.
  destruct (main_cases env opts w)
    as [(err & Hparse & Hmain)|[(Hparse & Hfail & Hmain)
       |[(Hparse & w1 & e & w2 & Hprep & Hrun & Hmain)
        |(w0 & Hreach & Hmain)]]]; rewrite Hmain.
  - by exists err.
  - destruct (prepare_failure_effect env opts w Hfail) as (_ & _ & msg & Hmsg).
    exists (errorLine msg). split; [done|].
    destruct (prepare_failure_status env opts w Hfail) as [-> | ->];
      by exists msg.
  - destruct (analysis_failure_effect env opts w w1 w2 e Hprep Hrun)
      as (_ & He & _).
    exists (errorLine e). simpl. rewrite He. split; [done|]. by exists e.
  - destruct (reaching_frame env opts w w0 Hreach) as (_ & _ & _ & He & _).
    destruct (reportEach_frame env opts (getResults opts w0) (reporters w0) w0)
      as (_ & _ & _ & Hle & _).
    destruct (reportEach env opts (getResults opts w0) (reporters w0) w0)
      as [[[]|e] w'] eqn:Hloop; simpl in Hle.
    + destruct (handleExit_diagnostic opts (getResults opts w0) w')
        as (text & Htext & Hshape).
      exists text. by rewrite Htext, Hle, He.
    + exists (errorLine e). simpl. rewrite Hle, He. split; [done|].
      by exists e.
Qed.

(** X9. Without an output path configured a run of [main] never changes a
    file, whatever its outcome. *)
Theorem X9_no_file_without_output_path
    (codes : ExitCodeValues) (methods : ResultsMethods)
    (env : Env) (opts : Options) (w : World) :
  hasOutputPath opts = false ->
  files (snd (main env opts w)) = files w.
Proof.
  intros Hout.
  destruct (main_cases env opts w)
    as [(err & Hparse & Hmain)|[(Hparse & Hfail & Hmain)
       |[(Hparse & w1 & e & w2 & Hprep & Hrun & Hmain)
        |(w0 & Hreach & Hmain)]]]; rewrite Hmain.
  - done.
  - by destruct (prepare_failure_effect env opts w Hfail) as (-> & _).
  - by destruct (analysis_failure_effect env opts w w1 w2 e Hprep Hrun)
      as (<- & _).
  - destruct (reaching_frame env opts w w0 Hreach) as (_ & _ & Hf & _).
    destruct (reportEach_frame env opts (getResults opts w0) (reporters w0) w0)
      as (_ & _ & _ & _ & _ & Hlf).
    destruct (reportEach env opts (getResults opts w0) (reporters w0) w0)
      as [[[]|e] w'] eqn:Hloop; simpl in Hlf.
    + destruct (handleExit_frame opts (getResults opts w0) w') as [-> _].
      by rewrite Hlf, Hf.
    + simpl. by rewrite Hlf, Hf.
Qed.

(** X10. With an output path configured the reporters never write to the
    standard output: a run of [main] leaves it as it was, except for the
    list of enabled rules, which is printed once, after a successful
    start-up, when that option is set. *)
Theorem X10_stdout_is_left_to_the_rule_list
    (codes : ExitCodeValues) (methods : ResultsMethods)
    (env : Env) (opts : Options) (w : World) :
  hasOutputPath opts = true ->
  (showEnabledRules opts = false -> cout (snd (main env opts w)) = cout w) /\
  (showEnabledRules opts = true ->
     (fst (prepare env opts w) <> SUCCESS \/ parserError env <> None) ->
     cout (snd (main env opts w)) = cout w) /\
  (showEnabledRules opts = true ->
     parserError env = None ->
     forall w1, prepare env opts w = (SUCCESS, w1) ->
       cout (snd (main env opts w))
         = cout w +:+ enabledRulesText env (ruleSet w1)).
Proof.
  intros Hout.
  assert (forall w0 w1,
            reachesReporting env opts w w0 ->
            prepare env opts w = (SUCCESS, w1) -> ruleSet w0 = ruleSet w1)
    as Hrules.
  { intros w0 w1 Hreach Hprep.
    destruct (reaching_frame env opts w w0 Hreach) as (_ & -> & _).
    by destruct (prepare_success_effect env opts w w1 Hprep) as (_ & -> & _). }
  destruct (main_cases env opts w)
    as [(err & Hparse & Hmain)|[(Hparse & Hfail & Hmain)
       |[(Hparse & w1 & e & w2 & Hprep & Hrun & Hmain)
        |(w0 & Hreach & Hmain)]]]; rewrite Hmain.
  - repeat split; try done. intros _ Hnone. congruence.
  - destruct (prepare_failure_effect env opts w Hfail) as (_ & -> & _).
    repeat split; try done. intros _ _ w1 Hprep. by rewrite Hprep in Hfail.
  - destruct (analysis_failure_effect env opts w w1 w2 e Hprep Hrun)
      as (_ & _ & Hc).
    simpl. rewrite Hc. split; [by intros ->|]. split.
    + intros _ [Hfail|Hne]; [by rewrite Hprep in Hfail|done].
    + intros -> _ w1' Hprep'. congruence.
  - destruct (reaching_frame env opts w w0 Hreach) as (_ & _ & _ & _ & Hc).
    destruct (reportEach_frame env opts (getResults opts w0) (reporters w0) w0)
      as (_ & _ & _ & _ & Hlc & _).
    assert (cout (snd (match
              reportEach env opts (getResults opts w0) (reporters w0) w0 with
            | (Ok _, w') => handleExit opts (getResults opts w0) w'
            | (Throw e, w') => (ERROR_WHILE_REPORTING, printErrorLine e w')
            end)) = cout w0) as ->.
    { destruct (reportEach env opts (getResults opts w0) (reporters w0) w0)
        as [[[]|e] w']; simpl in *.
      - destruct (handleExit_frame opts (getResults opts w0) w') as [_ ->].
        by apply Hlc.
      - by apply Hlc. }
    rewrite Hc. split; [by intros ->|]. split.
    + intros _ [Hfail|Hne].
      * destruct Hreach as (_ & w1 & Hprep & _). by rewrite Hprep in Hfail.
      * by destruct Hreach as (Hnone & _).
    + intros -> _ w1 Hprep. by rewrite (Hrules w0 w1 Hreach Hprep).
Qed.

(** ** The derived output path *)

Lemma string_length_app (a b : string) :
  String.length (a +:+ b) = (String.length a + String.length b)%nat.
Proof.
  induction a as [|x a IH]; [done|].
  change (S (String.length (a +:+ b))
          = S (String.length a + String.length b)). by rewrite IH.
Qed.

Lemma string_get_app_l (a b : string) (i : nat) :
  (i < String.length a)%nat -> String.get i (a +:+ b) = String.get i a.
Proof. intros Hi. symmetry. by apply String.append_correct1. Qed.

Lemma string_get_app_r (a b : string) (i : nat) :
  String.get (String.length a + i) (a +:+ b) = String.get i b.
Proof. rewrite Nat.add_comm. symmetry. apply String.append_correct2. Qed.

Lemma substring_app_l (a b : string) :
  String.substring 0 (String.length a) (a +:+ b) = a.
Proof.
  induction a as [|x a IH]; [by destruct b|].
  change (String x (String.substring 0 (String.length a) (a +:+ b))
          = String x a). by rewrite IH.
Qed.

Lemma substring_whole (s : string) :
  String.substring 0 (String.length s) s = s.
Proof.
  induction s as [|x s IH]; [done|].
  change (String x (String.substring 0 (String.length s) s) = String x s).
  by rewrite IH.
Qed.

Lemma substring_app_r (a b : string) :
  String.substring (String.length a) (String.length b) (a +:+ b) = b.
Proof. induction a as [|x a IH]; [apply substring_whole|exact IH]. Qed.

Lemma substring_nothing (s : string) : String.substring 0 0 s = "".
Proof. by destruct s. Qed.

Lemma has_char_get (c : ascii) (s : string) (i : nat) :
  has_char c s = false -> String.get i s <> Some c.
Proof.
  revert i. induction s as [|x s IH]; intros i; [done|].
  simpl. intros [Hx Hs]%orb_false_iff. apply bool_decide_eq_false in Hx.
  destruct i as [|i]; [congruence|by apply IH].
Qed.

Lemma no_separator_at (s : string) (i : nat) :
  has_char "/" s = false -> path.sep_at s i = false.
Proof.
  intros Hs. unfold path.sep_at, path.is_separator.
  pose proof (has_char_get "/" s i Hs) as Hget.
  destruct (String.get i s) as [c|]; [|done].
  apply bool_decide_eq_false. congruence.
Qed.

Lemma find_last_sep_below_none (s : string) (n : nat) :
  has_char "/" s = false -> path.find_last_sep_below s n = None.
Proof.
  intros Hs. induction n as [|n IH]; [done|].
  simpl. by rewrite no_separator_at.
Qed.

(** A template without any slash: its parent path is empty and its file
    name is the template itself. *)
Lemma parent_path_bare (t : string) :
  has_char "/" t = false -> path.parent_path t = "".
Proof.
  intros Ht. unfold path.parent_path, path.parent_path_end.
  assert (path.filename_pos t = 0%nat) as ->.
  { unfold path.filename_pos.
    by rewrite no_separator_at, andb_false_r, find_last_sep_below_none. }
  assert (path.root_dir_start t = None) as ->.
  { unfold path.root_dir_start. rewrite !(no_separator_at t 0) by done.
    by rewrite !andb_false_r. }
  simpl. apply substring_nothing.
Qed.

Lemma skip_trailing_last (s : string) (root : option nat) :
  path.sep_at s (String.length s - 1) = false ->
  path.skip_trailing s root (String.length s) = String.length s.
Proof.
  destruct (String.length s) as [|n]; [done|].
  simpl. rewrite Nat.sub_0_r. intros ->. by rewrite andb_false_r.
Qed.

Lemma filename_bare (t : string) :
  has_char "/" t = false -> path.filename t = t.
Proof.
  intros Ht. unfold path.filename.
  rewrite skip_trailing_last by by apply no_separator_at.
  rewrite (no_separator_at t (String.length t - 1)) by done.
  rewrite andb_false_r. simpl. rewrite substring_whole.
  assert (path.filename_pos t = 0%nat) as ->.
  { unfold path.filename_pos.
    by rewrite no_separator_at, andb_false_r, find_last_sep_below_none. }
  rewrite Nat.sub_0_r. apply substring_whole.
Qed.

Lemma find_last_dot_below_none (s : string) (n : nat) :
  has_char "." s = false -> path.find_last_dot_below s n = None.
Proof.
  intros Hs. induction n as [|n IH]; [done|].
  simpl. rewrite bool_decide_eq_false_2; [done|]. by apply has_char_get.
Qed.

(** X11. For an output-path template without any slash, the path
    [outStream] derives is a slash, the stem of the template, a dot and the
    name of the reporter: the report goes to the root directory, not beside
    the template.  When the template has no dot either, the stem is the
    template itself. *)
Theorem X11_template_without_directory_goes_to_root
    (opts : Options) (r : Reporter) :
  has_char "/" (outputPath opts) = false ->
  outputFor opts r = "/" +:+ path.stem (outputPath opts) +:+ "." +:+ name r /\
  (has_char "." (outputPath opts) = false ->
     outputFor opts r = "/" +:+ outputPath opts +:+ "." +:+ name r).
Proof.
  intros Ht. unfold outputFor. rewrite parent_path_bare by done.
  split; [done|]. intros Hdot. unfold path.stem.
  rewrite filename_bare by done.
  by rewrite find_last_dot_below_none.
Qed.

Lemma sep_at_app_l (a b : string) (i : nat) :
  (i < String.length a)%nat -> path.sep_at (a +:+ b) i = path.sep_at a i.
Proof. intros Hi. unfold path.sep_at. by rewrite string_get_app_l. Qed.

Lemma sep_at_app_r (a b : string) (i : nat) :
  path.sep_at (a +:+ b) (String.length a + i) = path.sep_at b i.
Proof. unfold path.sep_at. by rewrite string_get_app_r. Qed.

Lemma string_nonempty_length (s : string) :
  s <> "" -> (0 < String.length s)%nat.
Proof. destruct s; [done|]. simpl. lia. Qed.

Section DirectoryTemplate.

(** A template [dir/fname]: a directory part that is not empty, does not
    end with a slash and does not begin with two, and a file name without
    slash. *)
Variables dir fname : string.
Hypothesis dir_nonempty : dir <> "".
Hypothesis dir_end : path.sep_at dir (String.length dir - 1) = false.
Hypothesis dir_start : path.sep_at dir 0 && path.sep_at dir 1 = false.
Hypothesis fname_nonempty : fname <> "".
Hypothesis fname_plain : has_char "/" fname = false.

Local Abbreviation t := (dir +:+ "/" +:+ fname).

Lemma template_length :
  String.length t = S (String.length dir + String.length fname).
Proof. rewrite !string_length_app. simpl. lia. Qed.

Lemma template_sep_in_dir (i : nat) :
  (i < String.length dir)%nat -> path.sep_at t i = path.sep_at dir i.
Proof. apply sep_at_app_l. Qed.

Lemma template_sep_at_slash : path.sep_at t (String.length dir) = true.
Proof.
  rewrite <- (Nat.add_0_r (String.length dir)) at 1.
  by rewrite sep_at_app_r.
Qed.

Lemma template_sep_in_fname (i : nat) :
  path.sep_at t (S (String.length dir) + i) = false.
Proof.
  rewrite <- string_app_assoc.
  replace (S (String.length dir)) with (String.length (dir +:+ "/"))
    by (rewrite string_length_app; simpl; lia).
  rewrite sep_at_app_r. by apply no_separator_at.
Qed.

Lemma template_last_sep (n : nat) :
  (String.length dir < n)%nat ->
  path.find_last_sep_below t n = Some (String.length dir).
Proof.
  induction n as [|n IH]; [lia|]. intros Hn. simpl.
  destruct (decide (n = String.length dir)) as [->|Hne].
  - by rewrite template_sep_at_slash.
  - replace n with (S (String.length dir) + (n - S (String.length dir)))%nat
      at 1 by lia.
    rewrite template_sep_in_fname. apply IH. lia.
Qed.

Lemma template_last_char : path.sep_at t (String.length t - 1) = false.
Proof.
  pose proof (string_nonempty_length fname fname_nonempty).
  rewrite template_length.
  replace (S (String.length dir + String.length fname) - 1)%nat
    with (S (String.length dir) + (String.length fname - 1))%nat by lia.
  apply template_sep_in_fname.
Qed.

Lemma template_filename_pos : path.filename_pos t = S (String.length dir).
Proof.
  pose proof (string_nonempty_length fname fname_nonempty).
  pose proof (string_nonempty_length dir dir_nonempty).
  unfold path.filename_pos.
  rewrite template_last_char, andb_false_r, template_last_sep
    by (rewrite template_length; lia).
  destruct (Nat.eqb_spec (String.length dir) 1) as [Hone|_]; [|done].
  rewrite template_sep_in_dir by lia.
  rewrite Hone in dir_end. simpl in dir_end. by rewrite dir_end.
Qed.

Lemma template_root :
  path.root_dir_start t = if path.sep_at dir 0 then Some 0%nat else None.
Proof.
  pose proof (string_nonempty_length dir dir_nonempty).
  unfold path.root_dir_start.
  rewrite !(template_sep_in_dir 0) by done.
  destruct (path.sep_at dir 0) eqn:H0; [|by rewrite !andb_false_r].
  simpl in dir_start.
  assert (bool_decide (String.get 0 t = String.get 1 t) = false) as ->.
  { apply bool_decide_eq_false. intros Heq.
    assert (1 < String.length dir)%nat as Hlen.
    { destruct (decide (String.length dir = 1%nat)) as [Hone|]; [|lia].
      rewrite Hone in dir_end. simpl in dir_end. congruence. }
    rewrite !string_get_app_l in Heq by lia.
    unfold path.sep_at in H0, dir_start. rewrite <- Heq in dir_start.
    congruence. }
  rewrite andb_false_r. simpl. rewrite template_length. done.
Qed.

Lemma template_parent_path : path.parent_path t = dir.
Proof.
  pose proof (string_nonempty_length dir dir_nonempty) as Hdir.
  unfold path.parent_path, path.parent_path_end.
  rewrite template_filename_pos, template_root.
  assert (forall root,
            path.above_root root (S (String.length dir)) = true ->
            path.skip_separators t root (S (String.length dir))
            = String.length dir) as Hskip.
  { intros root Habove. simpl. rewrite Habove, template_sep_at_slash. simpl.
    destruct (String.length dir) as [|e] eqn:Hlen; [lia|]. simpl.
    rewrite template_sep_in_dir by lia.
    simpl in dir_end. rewrite Nat.sub_0_r in dir_end.
    by rewrite dir_end, andb_false_r. }
  destruct (path.sep_at dir 0).
  - rewrite Hskip by done.
    destruct (Nat.eqb_spec (String.length dir) 0) as [Hz|_]; [lia|].
    simpl. apply substring_app_l.
  - rewrite Hskip by done. apply substring_app_l.
Qed.

Lemma template_filename : path.filename t = fname.
Proof.
  unfold path.filename.
  rewrite skip_trailing_last by apply template_last_char.
  rewrite template_last_char, andb_false_r. simpl.
  rewrite substring_whole, template_filename_pos, template_length.
  replace (S (String.length dir + String.length fname) - S (String.length dir))%nat
    with (String.length fname) by lia.
  replace (S (String.length dir)) with (String.length (dir +:+ "/"))
    by (rewrite string_length_app; simpl; lia).
  rewrite <- string_app_assoc. apply substring_app_r.
Qed.

End DirectoryTemplate.

Lemma last_dot_before_extension (base ext : string) (n : nat) :
  has_char "." ext = false ->
  (String.length base < n)%nat ->
  path.find_last_dot_below (base +:+ "." +:+ ext) n
  = Some (String.length base).
Proof.
  intros Hext. induction n as [|n IH]; [lia|]. intros Hn. simpl.
  destruct (decide (n = String.length base)) as [->|Hne].
  - rewrite bool_decide_eq_true_2; [done|].
    rewrite <- (Nat.add_0_r (String.length base)) at 1.
    by rewrite string_get_app_r.
  - rewrite bool_decide_eq_false_2; [apply IH; lia|].
    replace n with (String.length (base +:+ ".")
                    + (n - S (String.length base)))%nat
      by (rewrite string_length_app; simpl; lia).
    rewrite <- string_app_assoc, string_get_app_r. by apply has_char_get.
Qed.

Lemma stem_of_name_with_extension (t base ext : string) :
  path.filename t = base +:+ "." +:+ ext ->
  base <> "" ->
  has_char "." ext = false ->
  base +:+ "." +:+ ext <> ".." ->
  path.stem t = base.
Proof.
  intros Hname Hbase Hext Hdots. unfold path.stem. rewrite Hname.
  pose proof (string_nonempty_length base Hbase) as Hlen.
  rewrite last_dot_before_extension
    by (rewrite ?string_length_app; simpl; (done || lia)).
  rewrite (bool_decide_eq_false_2 (_ = "..")) by done.
  rewrite bool_decide_eq_false_2.
  - apply substring_app_l.
  - intros Heq. apply (f_equal String.length) in Heq.
    rewrite !string_length_app in Heq. simpl in Heq. lia.
Qed.

Lemma stem_of_name_without_extension (t fname : string) :
  path.filename t = fname ->
  has_char "." fname = false ->
  path.stem t = fname.
Proof.
  intros Hname Hplain. unfold path.stem. rewrite Hname.
  by rewrite find_last_dot_below_none.
Qed.

Lemma has_char_app (c : ascii) (a b : string) :
  has_char c (a +:+ b) = has_char c a || has_char c b.
Proof.
  induction a as [|x a IH]; [done|].
  change (bool_decide (x = c) || has_char c (a +:+ b)
          = bool_decide (x = c) || has_char c a || has_char c b).
  by rewrite IH, orb_assoc.
Qed.

Lemma derived_path_with_directory
    (opts : Options) (r : Reporter) (dir fname : string) :
  outputPath opts = dir +:+ "/" +:+ fname ->
  dir <> "" ->
  path.sep_at dir (String.length dir - 1) = false ->
  path.sep_at dir 0 && path.sep_at dir 1 = false ->
  fname <> "" ->
  has_char "/" fname = false ->
  (forall base ext,
     fname = base +:+ "." +:+ ext ->
     base <> "" -> has_char "." ext = false -> fname <> ".." ->
     outputFor opts r = dir +:+ "/" +:+ base +:+ "." +:+ name r) /\
  (has_char "." fname = false ->
     outputFor opts r = dir +:+ "/" +:+ fname +:+ "." +:+ name r).
Proof.
  intros Ht Hdir Hend Hstart Hfname Hplain. unfold outputFor. rewrite Ht.
  rewrite template_parent_path by done.
  pose proof (template_filename dir fname Hdir Hend Hfname Hplain)
    as Hname.
  split.
  - intros base ext Hsplit Hbase Hext Hdots. subst fname.
    by rewrite (stem_of_name_with_extension _ base ext).
  - intros Hnodot. by rewrite (stem_of_name_without_extension _ fname).
Qed.

(** X12. For an output-path template [dir/fname] whose directory part is
    not empty, does not end with a slash and does not begin with two, and
    whose file name has no slash, [outStream] derives a path in the same
    directory: [dir/base.name] when the file name is [base.ext] with a
    non-empty base and no dot in the extension, so that the extension is
    replaced by the name of the reporter; and [dir/fname.name] when the
    file name has no dot.  When the name of the reporter has no slash and
    no dot, a path derived this way is a template that derives itself
    again. *)
Theorem X12_template_with_directory_keeps_it
    (opts : Options) (r : Reporter) (dir fname : string) :
  outputPath opts = dir +:+ "/" +:+ fname ->
  dir <> "" ->
  path.sep_at dir (String.length dir - 1) = false ->
  path.sep_at dir 0 && path.sep_at dir 1 = false ->
  fname <> "" ->
  has_char "/" fname = false ->
  (forall base ext,
     fname = base +:+ "." +:+ ext ->
     base <> "" -> has_char "." ext = false -> fname <> ".." ->
     outputFor opts r = dir +:+ "/" +:+ base +:+ "." +:+ name r /\
     forall opts',
       outputPath opts' = outputFor opts r ->
       has_char "/" (name r) = false -> has_char "." (name r) = false ->
       base +:+ "." +:+ name r <> ".." ->
       outputFor opts' r = outputFor opts r) /\
  (has_char "." fname = false ->
     outputFor opts r = dir +:+ "/" +:+ fname +:+ "." +:+ name r).
Proof.
  intros Ht Hdir Hend Hstart Hfname Hplain.
  destruct (derived_path_with_directory opts r dir fname Ht Hdir Hend Hstart
              Hfname Hplain) as [Hext Hnone].
  split; [|done]. intros base ext Hsplit Hbase Hnodot Hdots.
  pose proof (Hext base ext Hsplit Hbase Hnodot Hdots) as Hderived.
  split; [done|]. intros opts' Ht' Hslash Hdot Hdots'.
  rewrite Hderived in Ht' |- *.
  assert (has_char "/" (base +:+ "." +:+ name r) = false) as Hplain'.
  { rewrite Hsplit, !has_char_app in Hplain.
    apply orb_false_iff in Hplain as [Hb _].
    by rewrite !has_char_app, Hb, Hslash. }
  assert (base +:+ "." +:+ name r <> "") as Hfname'.
  { intros Heq. apply (f_equal String.length) in Heq.
    rewrite !string_length_app in Heq. simpl in Heq. lia. }
  by apply (proj1 (derived_path_with_directory opts' r dir
                     (base +:+ "." +:+ name r) Ht' Hdir Hend Hstart Hfname'
                     Hplain') base (name r)).
Qed.

(** ** The files a completed loop leaves *)

Lemma lastWriter_cons (opts : Options) (p : string) (q : Reporter)
    (rs : list Reporter) :
  lastWriter opts p (q :: rs) =
    match lastWriter opts p rs with
    | Some r => Some r
    | None => if decide (outputFor opts q = p) then Some q else None
    end.
Proof.
  unfold lastWriter. rewrite filter_cons.
  destruct (decide (outputFor opts q = p)); [|by destruct (last _)].
  by rewrite last_cons.
Qed.

Lemma reportEach_files (env : Env) (opts : Options) (results : Results)
    (rs : list Reporter) (w w' : World) (p : string) :
  hasOutputPath opts = true ->
  reportEach env opts results rs w = (Ok tt, w') ->
  files w' !! p =
    match lastWriter opts p rs with
    | Some r => Some (reportText results r)
    | None => files w !! p
    end.
Proof.
  intros Hout. revert w. induction rs as [|q rs IH]; intros w.
  - by intros [= <-].
  - simpl. unfold bind.
    destruct (reportWith env opts results q w) as [[[]|e] w1] eqn:Hq; [|done].
    intros Hrest. rewrite (IH _ Hrest), lastWriter_cons.
    destruct (lastWriter opts p rs); [done|].
    destruct (decide (outputFor opts q = p)) as [<-|Hne].
    + by eapply reportWith_file_content.
    + destruct (reportWith_frame env opts results q w) as [Hfiles _].
      rewrite Hq in Hfiles. by apply Hfiles.
Qed.

(** X13. With an output path configured, after a run in which every
    reporter completes, each file is what the last reporter derived to it
    wrote, in full: two reporters with the same name share one file and the
    later one replaces the report of the earlier.  A file that no reporter
    is derived to is as it was before the run. *)
Theorem X13_each_file_holds_its_last_report
    (codes : ExitCodeValues) (methods : ResultsMethods)
    (env : Env) (opts : Options) (w w0 : World) (p : string) :
  let results := getResults opts w0 in
  hasOutputPath opts = true ->
  reachesReporting env opts w w0 ->
  Forall (completes env opts results) (reporters w0) ->
  files (snd (main env opts w)) !! p =
    match lastWriter opts p (reporters w0) with
    | Some r => Some (reportText results r)
    | None => files w !! p
    end.
Proof.
  intros results Hout Hreach Hall. subst results.
  destruct (reporting_status env opts w w0 Hreach)
    as [[Hex _]|(_ & w' & Hloop & ->)].
  { by destruct (all_complete_none_fails env opts _ _ Hall). }
  destruct (handleExit_frame opts (getResults opts w0) w') as [-> _].
  rewrite (reportEach_files env opts _ _ w0 w' p Hout Hloop).
  by destruct (reaching_frame env opts w w0 Hreach) as (_ & _ & -> & _).
Qed.

(** X14. Raising ceilings never fails a run that passed: if no count
    exceeds the ceilings of one configuration, none exceeds ceilings that
    are at least as high, and [handleExit] returning [SUCCESS] under the
    first returns [SUCCESS] under the second. *)
Theorem X14_higher_ceilings_keep_success
    (methods : ResultsMethods) (opts opts' : Options) (results : Results)
    (w w' : World) :
  ceilings_le opts opts' ->
  (numberOfViolationsExceedThreshold opts results = false ->
     numberOfViolationsExceedThreshold opts' results = false) /\
  (fst (handleExit opts results w) = SUCCESS ->
     fst (handleExit opts' results w') = SUCCESS).
Proof.
  intros (H1 & H2 & H3).
  assert (numberOfViolationsExceedThreshold opts results = false ->
          numberOfViolationsExceedThreshold opts' results = false) as Hmono.
  { unfold numberOfViolationsExceedThreshold.
    rewrite !orb_false_iff, !Z.gtb_ltb, !Z.ltb_ge. lia. }
  split; [done|]. rewrite !handleExit_cases.
  destruct (hasErrors results); [done|].
  destruct (numberOfViolationsExceedThreshold opts results); [done|].
  by rewrite Hmono.
Qed.


(** ** The properties above on concrete runs *)

Lemma X1_witness :
  consumeArgRulesPath twoReporterHost failingPathsOptions emptyWorld
  = (Throw "cannot open dynamic library: rules/missing.dylib",
     emit (EvLoadRules "rules/missing.dylib")
       (emit (EvLoadRules "rules/basic.dylib")
          (set_ruleSet ["long line"] emptyWorld))) /\
  exists pre p post,
    rulesPath failingPathsOptions = pre ++ p :: post /\
    [EvLoadRules "rules/basic.dylib"; EvLoadRules "rules/missing.dylib"]
    = [] ++ map EvLoadRules (pre ++ [p]).
Proof.
  assert (consumeArgRulesPath twoReporterHost failingPathsOptions emptyWorld
          = (Throw "cannot open dynamic library: rules/missing.dylib",
             emit (EvLoadRules "rules/missing.dylib")
               (emit (EvLoadRules "rules/basic.dylib")
                  (set_ruleSet ["long line"] emptyWorld)))) as Hrun
    by (vm_compute; reflexivity).
  split; [exact Hrun|].
  destruct (proj2 (X1_rule_paths_load_in_order_until_a_failure twoReporterHost
                     failingPathsOptions emptyWorld _) _ Hrun)
    as (pre & p & post & Hpaths & Htrace & _).
  exists pre, p, post. split; [exact Hpaths|exact Htrace].
Defined.

Lemma X2_witness :
  fst (prepare twoReporterHost failingPathsOptions emptyWorld)
    = RULE_NOT_FOUND /\
  reporters (snd (prepare twoReporterHost failingPathsOptions emptyWorld))
    = [].
Proof.
  assert (fst (prepare twoReporterHost failingPathsOptions emptyWorld)
          = RULE_NOT_FOUND) as Hst by (vm_compute; reflexivity).
  split; [exact Hst|].
  exact (proj1 (proj2 (X2_rule_failure_skips_reporter_loading twoReporterHost
                         failingPathsOptions emptyWorld Hst))).
Defined.

Lemma X3_witness :
  prepare twoReporterHost stdoutOptions emptyWorld
    = (SUCCESS, preparedWorld [lineReporter "json"; lineReporter "xml"]) /\
  trace (preparedWorld [lineReporter "json"; lineReporter "xml"])
    = [] ++ map EvLoadRules (rulesPath stdoutOptions) ++ [EvLoadReporter].
Proof.
  assert (prepare twoReporterHost stdoutOptions emptyWorld
          = (SUCCESS, preparedWorld [lineReporter "json"; lineReporter "xml"]))
    as Hprep by (vm_compute; reflexivity).
  split; [exact Hprep|].
  exact (proj1 (X3_successful_prepare_loads_all_then_reporters twoReporterHost
                  stdoutOptions emptyWorld _ Hprep)).
Defined.


Lemma reaches_analysedWorld_stdout :
  reachesReporting twoReporterHost stdoutOptions emptyWorld analysedWorld.
Proof.
  split; [reflexivity|].
  exists (preparedWorld [lineReporter "json"; lineReporter "xml"]).
  split; vm_compute; reflexivity.
Defined.

Lemma reaches_analysedWorld_template (unwritable : list string) :
  reachesReporting
    (hostWith {["rules/basic.dylib" := ["long line"]]}
       [lineReporter "json"; lineReporter "xml"] unwritable fiveP1)
    templateOptions emptyWorld analysedWorld.
Proof.
  split; [reflexivity|].
  exists (preparedWorld [lineReporter "json"; lineReporter "xml"]).
  split; vm_compute; reflexivity.
Defined.


Lemma stdout_reporters_complete :
  Forall (completes twoReporterHost stdoutOptions
            (getResults stdoutOptions analysedWorld))
    (reporters analysedWorld).
Proof.
  repeat constructor; simpl; (discriminate || reflexivity).
Defined.

Lemma template_reporters_complete :
  Forall (completes writableHost templateOptions
            (getResults templateOptions analysedWorld))
    (reporters analysedWorld).
Proof.
  repeat constructor; try (intros _; vm_compute; reflexivity).
Defined.

Lemma X5_witness :
  trace (snd (@main enum_values collectorViews twoReporterHost stdoutOptions
                emptyWorld))
  = trace analysedWorld ++ [EvReport "json" Cout; EvReport "xml" Cout].
Proof.
  destruct (X5_completed_run_reports_in_order_then_decides enum_values
              collectorViews twoReporterHost stdoutOptions emptyWorld
              analysedWorld reaches_analysedWorld_stdout
              stdout_reporters_complete) as (w' & _ & _ & Htrace & _).
  exact Htrace.
Defined.

Lemma X6_witness :
  fst (@main enum_values collectorViews twoReporterHost templateOptions
         emptyWorld) = ERROR_WHILE_REPORTING.
Proof.
  apply (X6_reporting_error_iff_a_reporter_fails enum_values collectorViews
           twoReporterHost templateOptions emptyWorld).
  exists analysedWorld.
  split; [apply (reaches_analysedWorld_template ["out/report.xml"])|].
  apply Exists_cons_tl, Exists_cons_hd. left. split; vm_compute; reflexivity.
Defined.

Lemma X7_witness :
  fst (@main enum_values collectorViews twoReporterHost stdoutOptions
         emptyWorld) = SUCCESS.
Proof.
  apply (X7_success_iff_every_phase_passes enum_values collectorViews
           twoReporterHost stdoutOptions emptyWorld).
  exists analysedWorld. split; [apply reaches_analysedWorld_stdout|].
  split; [apply stdout_reporters_complete|]. split; reflexivity.
Defined.

Lemma X9_witness :
  hasOutputPath threeReports = false /\
  files (snd (@main enum_values collectorViews throwingHost threeReports
                emptyWorld)) = files emptyWorld.
Proof.
  split; [reflexivity|].
  apply (X9_no_file_without_output_path enum_values collectorViews
           throwingHost threeReports emptyWorld). reflexivity.
Defined.

Lemma X10_witness :
  hasOutputPath templateOptions = true /\
  showEnabledRules templateOptions = false /\
  cout (snd (@main enum_values collectorViews writableHost templateOptions
               emptyWorld)) = cout emptyWorld.
Proof.
  split; [reflexivity|]. split; [reflexivity|].
  exact (proj1 (X10_stdout_is_left_to_the_rule_list enum_values collectorViews
                  writableHost templateOptions emptyWorld eq_refl) eq_refl).
Defined.

Lemma X11_witness :
  has_char "/" "report.html" = false /\
  outputFor (optionsWith [] ["xml"] 0 (Some "report.html") false)
    (lineReporter "xml")
  = "/" +:+ path.stem "report.html" +:+ "." +:+ "xml".
Proof.
  split; [reflexivity|].
  apply (X11_template_without_directory_goes_to_root
           (optionsWith [] ["xml"] 0 (Some "report.html") false)
           (lineReporter "xml")). reflexivity.
Defined.

Lemma X12_witness :
  outputFor templateOptions (lineReporter "json")
  = "out" +:+ "/" +:+ "report" +:+ "." +:+ "json".
Proof.
  assert ("out" <> "") as Hdir by discriminate.
  assert ("report.txt" <> "") as Hname by discriminate.
  assert ("report.txt" <> "..") as Hdots by discriminate.
  assert ("report" <> "") as Hbase by discriminate.
  exact (proj1 (proj1 (X12_template_with_directory_keeps_it templateOptions
                         (lineReporter "json") "out" "report.txt"
                         eq_refl Hdir eq_refl eq_refl Hname eq_refl)
                  "report" "txt" eq_refl Hbase eq_refl Hdots)).
Defined.

Lemma X13_witness :
  files (snd (@main enum_values collectorViews writableHost templateOptions
                emptyWorld)) !! "out/report.xml"
  = Some ("report in xml" +:+ endl).
Proof.
  exact (X13_each_file_holds_its_last_report enum_values collectorViews
           writableHost templateOptions emptyWorld analysedWorld
           "out/report.xml" eq_refl (reaches_analysedWorld_template [])
           template_reporters_complete).
Defined.

Lemma X14_witness :
  ceilings_le (optionsWith [] [] 5 None false) (optionsWith [] [] 9 None false)
  /\ fst (@handleExit collectorViews (optionsWith [] [] 9 None false)
            (RawResults fiveP1) emptyWorld) = SUCCESS.
Proof.
  assert (ceilings_le (optionsWith [] [] 5 None false)
            (optionsWith [] [] 9 None false)) as Hle
    by (repeat split; simpl; lia).
  split; [exact Hle|].
  apply (proj2 (X14_higher_ceilings_keep_success collectorViews
                  (optionsWith [] [] 5 None false)
                  (optionsWith [] [] 9 None false) (RawResults fiveP1)
                  emptyWorld emptyWorld Hle)). reflexivity.
Defined.

